(** * Verification of blockchain.py (Blockchain class and Flask handlers)

    Python values that the node handles (blocks, transactions, peer replies)
    are modelled as JSON values.  Python strings are Rocq strings read as
    Latin-1 code points (U+0000 .. U+00FF).  [hashlib.sha256] and
    [json.dumps(..., sort_keys=True)] are implemented concretely so that
    digests can be evaluated. *)

From Stdlib Require Import ZArith List String Ascii Bool Lia Permutation Sorting.Sorted.
Import ListNotations.
Open Scope Z_scope.
Open Scope list_scope.
Set Warnings "-register-all".

(* ------------------------------------------------------------------ *)
(** ** hashlib.sha256 *)

Module Sha256.

Definition mask32 : Z := 4294967295.
Definition w32 (x : Z) : Z := Z.land x mask32.
Definition add32 (x y : Z) : Z := w32 (x + y).
Definition rotr (x : Z) (n : Z) : Z :=
  Z.lor (Z.shiftr x n) (w32 (Z.shiftl x (32 - n))).

Definition ch (e f g : Z) : Z := Z.lxor (Z.land e f) (Z.land (Z.lxor e mask32) g).
Definition maj (a b c : Z) : Z :=
  Z.lxor (Z.lxor (Z.land a b) (Z.land a c)) (Z.land b c).
Definition bsig0 (a : Z) : Z := Z.lxor (Z.lxor (rotr a 2) (rotr a 13)) (rotr a 22).
Definition bsig1 (e : Z) : Z := Z.lxor (Z.lxor (rotr e 6) (rotr e 11)) (rotr e 25).
Definition ssig0 (x : Z) : Z := Z.lxor (Z.lxor (rotr x 7) (rotr x 18)) (Z.shiftr x 3).
Definition ssig1 (x : Z) : Z := Z.lxor (Z.lxor (rotr x 17) (rotr x 19)) (Z.shiftr x 10).

Definition K : list Z :=
  [ 1116352408; 1899447441; 3049323471; 3921009573; 961987163; 1508970993;
    2453635748; 2870763221; 3624381080; 310598401; 607225278; 1426881987;
    1925078388; 2162078206; 2614888103; 3248222580; 3835390401; 4022224774;
    264347078; 604807628; 770255983; 1249150122; 1555081692; 1996064986;
    2554220882; 2821834349; 2952996808; 3210313671; 3336571891; 3584528711;
    113926993; 338241895; 666307205; 773529912; 1294757372; 1396182291;
    1695183700; 1986661051; 2177026350; 2456956037; 2730485921; 2820302411;
    3259730800; 3345764771; 3516065817; 3600352804; 4094571909; 275423344;
    430227734; 506948616; 659060556; 883997877; 958139571; 1322822218;
    1537002063; 1747873779; 1955562222; 2024104815; 2227730452; 2361852424;
    2428436474; 2756734187; 3204031479; 3329325298 ].

Definition H0 : list Z :=
  [ 1779033703; 3144134277; 1013904242; 2773480762; 1359893119; 2600822924;
    528734635; 1541459225 ].

(** Message padding: a 1 bit, zeros up to 56 mod 64 bytes, then the
    message length in bits as a 64-bit big-endian integer. *)
Definition be_bytes (n : nat) (x : Z) : list Z :=
  map (fun i => Z.land (Z.shiftr x (8 * Z.of_nat (n - 1 - i))) 255) (seq 0 n).

Definition pad (msg : list Z) : list Z :=
  let len := Z.of_nat (List.length msg) in
  let zeros := Z.to_nat ((55 - len) mod 64) in
  msg ++ [128] ++ repeat 0 zeros ++ be_bytes 8 (8 * len).

Fixpoint words_of_bytes (n : nat) (bs : list Z) : list Z :=
  match n with
  | O => []
  | S n' =>
      match bs with
      | b0 :: b1 :: b2 :: b3 :: rest =>
          Z.lor (Z.shiftl b0 24) (Z.lor (Z.shiftl b1 16) (Z.lor (Z.shiftl b2 8) b3))
            :: words_of_bytes n' rest
      | _ => []
      end
  end.

(** Message schedule, kept in reverse order while it is extended. *)
Fixpoint extend (n : nat) (rw : list Z) : list Z :=
  match n with
  | O => rw
  | S n' =>
      let w t := nth t rw 0 in
      (* rw = [W(t-1); W(t-2); ...] *)
      extend n' (add32 (add32 (ssig1 (w 1%nat)) (w 6%nat))
                       (add32 (ssig0 (w 14%nat)) (w 15%nat)) :: rw)
  end.

Definition schedule (block : list Z) : list Z :=
  rev (extend 48 (rev (words_of_bytes 16 block))).

Definition round (st : list Z) (kw : Z * Z) : list Z :=
  match st with
  | [a; b; c; d; e; f; g; h] =>
      let t1 := add32 (add32 (add32 h (bsig1 e)) (add32 (ch e f g) (fst kw))) (snd kw) in
      let t2 := add32 (bsig0 a) (maj a b c) in
      [add32 t1 t2; a; b; c; add32 d t1; e; f; g]
  | _ => st
  end.

Definition compress (hs : list Z) (block : list Z) : list Z :=
  let st := fold_left round (combine K (schedule block)) hs in
  map (fun p => add32 (fst p) (snd p)) (combine hs st).

Fixpoint process (n : nat) (hs : list Z) (bs : list Z) : list Z :=
  match n with
  | O => hs
  | S n' => process n' (compress hs (firstn 64 bs)) (skipn 64 bs)
  end.

(** [hashlib.sha256(data).digest()] as a list of byte values. *)
Definition digest (msg : list Z) : list Z :=
  let p := pad msg in
  flat_map (be_bytes 4) (process (List.length p / 64) H0 p).

Definition hex_char (n : Z) : ascii :=
  if n <? 10 then ascii_of_nat (48 + Z.to_nat n) else ascii_of_nat (87 + Z.to_nat n).

(** [.hexdigest()]: two lowercase hexadecimal characters per byte. *)
Fixpoint hex (bs : list Z) : string :=
  match bs with
  | [] => EmptyString
  | b :: rest => String (hex_char (Z.shiftr b 4)) (String (hex_char (Z.land b 15)) (hex rest))
  end.

Definition hexdigest (msg : list Z) : string := hex (digest msg).

End Sha256.

Local Open Scope list_scope.

(** [str.encode()]: UTF-8 of the Latin-1 code points of a string. *)
Fixpoint utf8_encode (s : string) : list Z :=
  match s with
  | EmptyString => []
  | String c rest =>
      let n := Z.of_nat (nat_of_ascii c) in
      (if n <? 128 then [n]
       else [Z.lor 192 (Z.shiftr n 6); Z.lor 128 (Z.land n 63)]) ++ utf8_encode rest
  end.

(* ------------------------------------------------------------------ *)
(** ** Python values *)

(** JSON-representable Python values: [None], [bool], [int], [float]
    (carried as its [repr], e.g. "1700000000.5"; "inf", "-inf", "nan" for
    the special values), [str], [list], and [dict] as the list of its
    items in insertion order (keys distinct). *)
Inductive json : Type :=
| JNull
| JBool (b : bool)
| JInt (z : Z)
| JFloat (repr : string)
| JStr (s : string)
| JArr (items : list json)
| JObj (fields : list (string * json)).

(** Python exceptions raised by the code. *)
Inductive exn : Type :=
| IndexError | KeyError | TypeError | AttributeError
| RequestException       (* requests.get raised: unreachable peer, timeout *)
| JSONDecodeError        (* response.json() on a body that is not JSON *)
| ValueError.

Inductive result (A : Type) : Type :=
| Ok (a : A)
| Err (e : exn).
Arguments Ok {A} a.
Arguments Err {A} e.

Definition bind_result {A B} (m : result A) (k : A -> result B) : result B :=
  match m with Ok a => k a | Err e => Err e end.

Notation "'let?' x ':=' m 'in' k" := (bind_result m (fun x => k))
  (at level 200, x name, m at level 100, k at level 200).

Local Open Scope string_scope.

Definition dquote : ascii := ascii_of_nat 34.
Definition backslash : ascii := ascii_of_nat 92.
Definition code (c : ascii) : nat := nat_of_ascii c.

Fixpoint concat_str (sep : string) (l : list string) : string :=
  match l with
  | [] => EmptyString
  | [x] => x
  | x :: rest => (x ++ sep ++ concat_str sep rest)%string
  end.

(** [str(n)] for an [int]: decimal digits, with a leading '-' when negative. *)
Fixpoint digits_of_nat (fuel : nat) (n : nat) (acc : string) : string :=
  match fuel with
  | O => acc
  | S fuel' =>
      let acc' := String (ascii_of_nat (48 + n mod 10)) acc in
      if Nat.ltb n 10 then acc' else digits_of_nat fuel' (n / 10) acc'
  end.

Definition dec_N (n : N) : string :=
  match n with
  | N0 => "0"
  | Npos p => digits_of_nat (Pos.size_nat p) (Pos.to_nat p) EmptyString
  end.

Definition dec_Z (z : Z) : string :=
  match z with
  | Zneg p => String "-" (dec_N (Npos p))
  | _ => dec_N (Z.to_N z)
  end.

Definition hex2 (n : nat) : string :=
  String (Sha256.hex_char (Z.of_nat (n / 16))) (String (Sha256.hex_char (Z.of_nat (n mod 16))) EmptyString).

(** Characters [str.isprintable] accepts among U+0000..U+00FF. *)
Definition printable (n : nat) : bool :=
  ((Nat.leb 32 n) && (Nat.ltb n 127)) || ((Nat.leb 161 n) && negb (Nat.eqb n 173)).

(** [repr(s)] for a [str]: single quotes unless the string contains a
    single quote and no double quote. *)
Definition repr_str (s : string) : string :=
  let has c := existsb (fun d => Ascii.eqb d c) (list_ascii_of_string s) in
  let q := if has "'"%char && negb (has dquote) then dquote else "'"%char in
  let esc (c : ascii) : string :=
    let n := code c in
    if Ascii.eqb c q || Ascii.eqb c backslash then String backslash (String c EmptyString)
    else if Nat.eqb n 9 then "\t"
    else if Nat.eqb n 10 then "\n"
    else if Nat.eqb n 13 then "\r"
    else if printable n then String c EmptyString
    else ("\x" ++ hex2 n)%string in
  String q (concat_str EmptyString (map esc (list_ascii_of_string s)) ++ String q EmptyString).

Fixpoint py_repr (v : json) : string :=
  match v with
  | JNull => "None"
  | JBool true => "True"
  | JBool false => "False"
  | JInt z => dec_Z z
  | JFloat r => r
  | JStr s => repr_str s
  | JArr l => ("[" ++ concat_str ", " (map py_repr l) ++ "]")%string
  | JObj l => ("{" ++ concat_str ", "
                 (map (fun '(k, x) => repr_str k ++ ": " ++ py_repr x)%string l) ++ "}")%string
  end.

(** [str(v)], which is what an f-string inserts. *)
Definition py_str (v : json) : string :=
  match v with
  | JStr s => s
  | _ => py_repr v
  end.

(* ------------------------------------------------------------------ *)
(** ** json.dumps(obj, sort_keys=True) *)

(** [py_encode_basestring_ascii]: every character outside the range from
    space to tilde is escaped, and so are the double quote (34) and the
    backslash (92). *)
Definition json_escape (c : ascii) : string :=
  let n := code c in
  if Nat.eqb n 34 then String backslash (String dquote EmptyString)
  else if Nat.eqb n 92 then String backslash (String backslash EmptyString)
  else if Nat.eqb n 8 then "\b"
  else if Nat.eqb n 12 then "\f"
  else if Nat.eqb n 10 then "\n"
  else if Nat.eqb n 13 then "\r"
  else if Nat.eqb n 9 then "\t"
  else if (Nat.leb 32 n) && (Nat.leb n 126) then String c EmptyString
  else ("\u00" ++ hex2 n)%string.

Definition json_str (s : string) : string :=
  (String dquote (concat_str EmptyString (map json_escape (list_ascii_of_string s))) ++ String dquote EmptyString)%string.

Definition json_float (r : string) : string :=
  if String.eqb r "nan" then "NaN"
  else if String.eqb r "inf" then "Infinity"
  else if String.eqb r "-inf" then "-Infinity"
  else r.

(** The items of a dict ordered by key ([sorted(dct.items())]; the keys
    are distinct, so only keys are compared).  Insertion sort. *)
Fixpoint insert_item {A} (kv : string * A) (l : list (string * A)) : list (string * A) :=
  match l with
  | [] => [kv]
  | kv' :: rest =>
      match String.compare (fst kv) (fst kv') with
      | Gt => kv' :: insert_item kv rest
      | _ => kv :: kv' :: rest
      end
  end.

Fixpoint sort_items {A} (l : list (string * A)) : list (string * A) :=
  match l with
  | [] => []
  | kv :: rest => insert_item kv (sort_items rest)
  end.

(** Each value is encoded, then the items are put in key order; the
    separators are the defaults ", " and ": ". *)
Fixpoint dumps (v : json) : string :=
  match v with
  | JNull => "null"
  | JBool true => "true"
  | JBool false => "false"
  | JInt z => dec_Z z
  | JFloat r => json_float r
  | JStr s => json_str s
  | JArr l => ("[" ++ concat_str ", " (map dumps l) ++ "]")%string
  | JObj l =>
      ("{" ++ concat_str ", "
         (map (fun '(k, s) => json_str k ++ ": " ++ s)%string
            (sort_items (map (fun '(k, x) => (k, dumps x)) l))) ++ "}")%string
  end.

(* ------------------------------------------------------------------ *)
(** ** Blockchain.hash and Blockchain.valid_proof *)

(** [hash(block)]:
    [hashlib.sha256(json.dumps(block, sort_keys=True).encode()).hexdigest()] *)
Definition hash (block : json) : string :=
  Sha256.hexdigest (utf8_encode (dumps block)).

(** [valid_proof(last_proof, proof)]:
    [guess = f'{last_proof}{proof}'.encode()]; the hex digest of [guess]
    is checked for the prefix "0000" ([guess_hash[:4] == "0000"]). *)
Definition valid_proof (last_proof proof : json) : bool :=
  let guess := utf8_encode (py_str last_proof ++ py_str proof)%string in
  let guess_hash := Sha256.hexdigest guess in
  String.eqb (substring 0 4 guess_hash) "0000".

Local Close Scope string_scope.

(* ------------------------------------------------------------------ *)
(** ** Python operations on values *)

(** Numbers as Python compares them.  A float is read from its [repr]
    as the decimal [m * 10^e]; this is its exact value whenever it is
    compared with integers below 2^53 or with other floats. *)
Inductive pynum : Type :=
| NFin (m : Z) (e : Z)
| NPosInf
| NNegInf
| NNaN.

Fixpoint read_digits (l : list ascii) (acc : Z) (cnt : Z) : Z * Z * list ascii :=
  match l with
  | c :: rest =>
      let n := Z.of_nat (code c) in
      if (48 <=? n) && (n <=? 57) then read_digits rest (10 * acc + (n - 48)) (cnt + 1)
      else (acc, cnt, l)
  | [] => (acc, cnt, l)
  end.

Definition float_value (r : string) : pynum :=
  if String.eqb r "nan" then NNaN
  else if String.eqb r "inf" then NPosInf
  else if String.eqb r "-inf" then NNegInf
  else
    let l := list_ascii_of_string r in
    let '(neg, l) := match l with "-"%char :: t => (true, t) | _ => (false, l) end in
    let '(ip, _, l) := read_digits l 0 0 in
    let '(m, fcnt, l) :=
      match l with "."%char :: t => read_digits t ip 0 | _ => (ip, 0, l) end in
    let ex :=
      match l with
      | "e"%char :: "-"%char :: t => - fst (fst (read_digits t 0 0))
      | "e"%char :: "+"%char :: t => fst (fst (read_digits t 0 0))
      | "e"%char :: t => fst (fst (read_digits t 0 0))
      | _ => 0
      end in
    NFin (if neg then - m else m) (ex - fcnt).

Definition py_num (v : json) : result pynum :=
  match v with
  | JBool b => Ok (NFin (if b then 1 else 0) 0)
  | JInt z => Ok (NFin z 0)
  | JFloat r => Ok (float_value r)
  | _ => Err TypeError
  end.

Definition num_gt (x y : pynum) : bool :=
  match x, y with
  | NNaN, _ | _, NNaN => false
  | NPosInf, NPosInf => false
  | NPosInf, _ => true
  | NNegInf, _ => false
  | _, NPosInf => false
  | _, NNegInf => true
  | NFin m1 e1, NFin m2 e2 =>
      let e := Z.min e1 e2 in
      m1 * 10 ^ (e1 - e) >? m2 * 10 ^ (e2 - e)
  end.

(** [a > b]; ordering an [int] against a [str], [list], [dict] or [None]
    raises [TypeError]. *)
Definition py_gt (a b : json) : result bool :=
  let? x := py_num a in
  let? y := py_num b in
  Ok (num_gt x y).

Definition py_truthy (v : json) : bool :=
  match v with
  | JNull => false
  | JBool b => b
  | JInt z => negb (z =? 0)
  | JFloat r => match float_value r with NFin m _ => negb (m =? 0) | _ => true end
  | JStr s => negb (String.eqb s EmptyString)
  | JArr l => match l with [] => false | _ => true end
  | JObj l => match l with [] => false | _ => true end
  end.

(** [len(v)] *)
Definition py_len (v : json) : result Z :=
  match v with
  | JStr s => Ok (Z.of_nat (String.length s))
  | JArr l => Ok (Z.of_nat (List.length l))
  | JObj l => Ok (Z.of_nat (List.length l))
  | _ => Err TypeError
  end.

(** [v[i]] for an integer [i]; negative indices count from the end.  A
    dict parsed from JSON has string keys only, so [d[i]] is a KeyError. *)
Definition py_index (v : json) (i : Z) : result json :=
  let norm n := if i <? 0 then i + n else i in
  match v with
  | JArr l =>
      let j := norm (Z.of_nat (List.length l)) in
      if (0 <=? j) && (j <? Z.of_nat (List.length l)) then
        match nth_error l (Z.to_nat j) with Some x => Ok x | None => Err IndexError end
      else Err IndexError
  | JStr s =>
      let j := norm (Z.of_nat (String.length s)) in
      if (0 <=? j) && (j <? Z.of_nat (String.length s)) then
        match String.get (Z.to_nat j) s with
        | Some c => Ok (JStr (String c EmptyString))
        | None => Err IndexError
        end
      else Err IndexError
  | JObj _ => Err KeyError
  | _ => Err TypeError
  end.

(** [d[k]] for a string key. *)
Definition py_getitem (v : json) (k : string) : result json :=
  match v with
  | JObj l =>
      match find (fun kv => String.eqb (fst kv) k) l with
      | Some kv => Ok (snd kv)
      | None => Err KeyError
      end
  | _ => Err TypeError
  end.

(** [v != s] for a [str] [s] is the negation of this. *)
Definition py_eq_str (v : json) (s : string) : bool :=
  match v with JStr t => String.eqb t s | _ => false end.

(** [v.append(x)]: only lists have it. *)
Definition py_append (v : json) (x : json) : result json :=
  match v with
  | JArr l => Ok (JArr (l ++ [x]))
  | _ => Err AttributeError
  end.

(** [d[k] = v] on a dict: the value of an existing key is replaced,
    a new key is added at the end. *)
Definition py_setitem (d : json) (k : string) (v : json) : result json :=
  match d with
  | JObj l =>
      Ok (JObj (if existsb (fun kv => String.eqb (fst kv) k) l
                then map (fun kv => if String.eqb (fst kv) k then (k, v) else kv) l
                else l ++ [(k, v)]))
  | _ => Err TypeError
  end.

(* ------------------------------------------------------------------ *)
(** ** Blockchain.valid_chain *)

(** The [while current_index < len(chain)] loop; [fuel] is [len(chain)],
    one more than the number of iterations. *)
Fixpoint valid_chain_loop (fuel : nat) (chain last_block : json) (current_index : Z)
  : result bool :=
  match fuel with
  | O => Ok true
  | S fuel' =>
      let? n := py_len chain in
      if current_index <? n then
        let? block := py_index chain current_index in
        let? ph := py_getitem block "previous_hash" in
        if negb (py_eq_str ph (hash last_block)) then Ok false
        else
          let? lp := py_getitem last_block "proof" in
          let? bp := py_getitem block "proof" in
          if negb (valid_proof lp bp) then Ok false
          else valid_chain_loop fuel' chain block (current_index + 1)
      else Ok true
  end.

Definition valid_chain (chain : json) : result bool :=
  let? last_block := py_index chain 0 in
  let? n := py_len chain in
  valid_chain_loop (Z.to_nat n) chain last_block 1.

(* ------------------------------------------------------------------ *)
(** ** The Blockchain object *)

(** [self.chain] is whatever object was last assigned to it (a list built
    by [new_block], or a peer's parsed chain); [self.current_transactions]
    is always a list; [self.nodes] is a set, listed here in its iteration
    order. *)
Record Blockchain : Type := mkBlockchain {
  chain : json;
  current_transactions : list json;
  nodes : list string
}.

Definition set_chain (c : json) (st : Blockchain) : Blockchain :=
  mkBlockchain c (current_transactions st) (nodes st).
Definition set_current_transactions (t : list json) (st : Blockchain) : Blockchain :=
  mkBlockchain (chain st) t (nodes st).
Definition set_nodes (n : list string) (st : Blockchain) : Blockchain :=
  mkBlockchain (chain st) (current_transactions st) n.

(** How a method call ends: it returns, raises (keeping every mutation
    made before the raise), or is still running the proof-of-work loop
    when the fuel runs out. *)
Inductive outcome (A : Type) : Type :=
| Returns (a : A)
| Raises (e : exn)
| Running.
Arguments Returns {A} a.
Arguments Raises {A} e.
Arguments Running {A}.

Definition M (A : Type) : Type := Blockchain -> Blockchain * outcome A.

Definition ret {A} (a : A) : M A := fun st => (st, Returns a).
Definition bind {A B} (m : M A) (k : A -> M B) : M B :=
  fun st =>
    match m st with
    | (st', Returns a) => k a st'
    | (st', Raises e) => (st', Raises e)
    | (st', Running) => (st', Running)
    end.
Definition get : M Blockchain := fun st => (st, Returns st).
Definition modify (f : Blockchain -> Blockchain) : M unit := fun st => (f st, Returns tt).
Definition lift {A} (r : result A) : M A :=
  fun st => match r with Ok a => (st, Returns a) | Err e => (st, Raises e) end.

Notation "x <- m ;; k" := (bind m (fun x => k))
  (at level 61, m at next level, right associativity).
Notation "m ;;; k" := (bind m (fun _ => k)) (at level 61, right associativity).

(** [self.last_block] *)
Definition last_block : M json :=
  st <- get ;; lift (py_index (chain st) (-1)).

(** [new_block(proof, previous_hash=None)]; [timestamp] is the value
    [time()] returns, as its float [repr]. *)
Definition new_block (timestamp : string) (proof previous_hash : json) : M json :=
  st <- get ;;
  n <- lift (py_len (chain st)) ;;
  ph <- (if py_truthy previous_hash then ret previous_hash
         else lb <- lift (py_index (chain st) (-1)) ;; ret (JStr (hash lb))) ;;
  let block := JObj [("index"%string, JInt (n + 1));
                     ("timestamp"%string, JFloat timestamp);
                     ("transactions"%string, JArr (current_transactions st));
                     ("proof"%string, proof);
                     ("previous_hash"%string, ph)] in
  modify (set_current_transactions []) ;;;
  st' <- get ;;
  c <- lift (py_append (chain st') block) ;;
  modify (set_chain c) ;;;
  ret block.

(** The value of [self.last_block['index'] + 1]: an [int]; for a float
    index it is the float sum, which this model leaves unevaluated. *)
Inductive index_value : Type :=
| IndexInt (z : Z)
| IndexFloatPlusOne (r : string).

Definition py_add_one (v : json) : result index_value :=
  match v with
  | JInt z => Ok (IndexInt (z + 1))
  | JBool b => Ok (IndexInt ((if b then 1 else 0) + 1))
  | JFloat r => Ok (IndexFloatPlusOne r)
  | _ => Err TypeError
  end.

(** [new_transaction(sender, recipient, amount)] *)
Definition new_transaction (sender recipient amount : json) : M index_value :=
  modify (fun st => set_current_transactions
            (current_transactions st ++
               [JObj [("sender"%string, sender); ("recipient"%string, recipient);
                      ("amount"%string, amount)]]) st) ;;;
  lb <- last_block ;;
  idx <- lift (py_getitem lb "index") ;;
  lift (py_add_one idx).

(** [urlparse(address).netloc] (urllib.parse.urlsplit): leading spaces
    and C0 controls are stripped and tabs and newlines removed; a scheme
    is split off at the first ':' when it is made of scheme characters
    and starts with a letter; the netloc is what follows "//" up to the
    first '/', '?' or '#'.  Unbalanced brackets raise ValueError, and so
    does a bracketed host that [_check_bracketed_netloc] refuses.  The
    final [_checknetloc] (the NFKC test) is left out: it raises only when
    the NFKC form of the netloc, with '@', ':', '#' and '?' removed,
    contains one of '/?#@:', and no string of characters U+0000..U+00FF
    (a netloc holds no '/') normalizes to such a form. *)
Definition is_alpha (n : nat) : bool :=
  (Nat.leb 65 n && Nat.leb n 90) || (Nat.leb 97 n && Nat.leb n 122).
Definition is_scheme_char (n : nat) : bool :=
  is_alpha n || (Nat.leb 48 n && Nat.leb n 57) || Nat.eqb n 43 || Nat.eqb n 45 || Nat.eqb n 46.

Fixpoint split_at_colon (l : list ascii) : option (list ascii * list ascii) :=
  match l with
  | [] => None
  | c :: rest =>
      if Nat.eqb (code c) 58 then Some ([], rest)
      else match split_at_colon rest with
           | Some (a, b) => Some (c :: a, b)
           | None => None
           end
  end.

Fixpoint take_netloc (l : list ascii) : list ascii :=
  match l with
  | c :: rest =>
      if Nat.eqb (code c) 47 || Nat.eqb (code c) 63 || Nat.eqb (code c) 35 then []
      else c :: take_netloc rest
  | [] => []
  end.

Definition has_char (n : nat) (l : list ascii) : bool := existsb (fun c => Nat.eqb (code c) n) l.

(** [s.partition(sep)]: the part before the first [sep], whether there
    was one, and the part after it. *)
Fixpoint py_partition (sep : nat) (l : list ascii) : list ascii * bool * list ascii :=
  match l with
  | [] => ([], false, [])
  | c :: rest =>
      if Nat.eqb (code c) sep then ([], true, rest)
      else let '(a, f, b) := py_partition sep rest in (c :: a, f, b)
  end.

(** [s.rpartition(sep)[2]]: what follows the last [sep], or all of [s]. *)
Fixpoint rpartition_tail (sep : nat) (l : list ascii) : list ascii :=
  match l with
  | [] => []
  | c :: rest =>
      if has_char sep rest then rpartition_tail sep rest
      else if Nat.eqb (code c) sep then rest else l
  end.

(** [s.split(sep)] *)
Fixpoint py_split (sep : nat) (l : list ascii) : list (list ascii) :=
  match l with
  | [] => [[]]
  | c :: rest =>
      if Nat.eqb (code c) sep then [] :: py_split sep rest
      else match py_split sep rest with
           | p :: ps => (c :: p) :: ps
           | [] => [[c]]
           end
  end.

Definition is_digit (n : nat) : bool := Nat.leb 48 n && Nat.leb n 57.
Definition is_hex_digit (n : nat) : bool :=
  is_digit n || (Nat.leb 65 n && Nat.leb n 70) || (Nat.leb 97 n && Nat.leb n 102).

Definition decimal_value (l : list ascii) : Z :=
  fold_left (fun acc c => acc * 10 + Z.of_nat (code c - 48)) l 0.

(** [IPv4Address._parse_octet] *)
Definition parse_octet (s : list ascii) : option Z :=
  match s with
  | [] => None
  | c0 :: _ =>
      if negb (forallb (fun c => is_digit (code c)) s) then None
      else if Nat.ltb 3 (List.length s) then None
      else if negb (Nat.eqb (List.length s) 1) && Nat.eqb (code c0) 48 then None
      else if 255 <? decimal_value s then None
      else Some (decimal_value s)
  end.

(** [IPv4Address(s)._ip], [None] when it raises AddressValueError. *)
Definition ipv4_address (s : list ascii) : option Z :=
  if has_char 47 s then None
  else match s with
  | [] => None
  | _ =>
      match py_split 46 s with
      | [o1; o2; o3; o4] =>
          match parse_octet o1, parse_octet o2, parse_octet o3, parse_octet o4 with
          | Some a, Some b, Some c, Some d => Some (((a * 256 + b) * 256 + c) * 256 + d)
          | _, _, _, _ => None
          end
      | _ => None
      end
  end.

(** ['%x' % n] *)
Fixpoint hex_format_aux (fuel : nat) (n : Z) (acc : list ascii) : list ascii :=
  match fuel with
  | O => acc
  | S fuel' =>
      let acc' := Sha256.hex_char (n mod 16) :: acc in
      if n / 16 =? 0 then acc' else hex_format_aux fuel' (n / 16) acc'
  end.
Definition hex_format (n : Z) : list ascii := hex_format_aux 32 n [].

(** [IPv6Address._parse_hextet] together with [int(hextet_str, 16)],
    which refuses the empty string. *)
Definition hextet_ok (s : list ascii) : bool :=
  forallb (fun c => is_hex_digit (code c)) s && Nat.leb (List.length s) 4 &&
  negb (Nat.eqb (List.length s) 0).

Definition is_empty {A} (l : list A) : bool := match l with [] => true | _ => false end.

(** [IPv6Address._ip_int_from_string] succeeds. *)
Definition ipv6_int_ok (addr : list ascii) : bool :=
  if is_empty addr then false else
  let parts := py_split 58 addr in
  if Nat.ltb (List.length parts) 3 then false else
  let parts :=
    if has_char 46 (last parts []) then
      match ipv4_address (last parts []) with
      | Some v => Some (removelast parts ++
                          [hex_format (Z.land (Z.shiftr v 16) 65535); hex_format (Z.land v 65535)])
      | None => None
      end
    else Some parts in
  match parts with
  | None => false
  | Some parts =>
    let n := List.length parts in
    if Nat.ltb 9 n then false else
    let empties := filter (fun i => is_empty (nth i parts [])) (seq 1 (n - 2)) in
    let first_empty := is_empty (nth 0 parts []) in
    let last_empty := is_empty (last parts []) in
    let bounds :=
      match empties with
      | [i] =>
          let hi := if first_empty then (i - 1)%nat else i in
          let lo := if last_empty then (n - i - 2)%nat else (n - i - 1)%nat in
          if first_empty && negb (Nat.eqb (i - 1) 0) then None
          else if last_empty && negb (Nat.eqb (n - i - 2) 0) then None
          else if Z.ltb (8 - Z.of_nat (hi + lo)) 1 then None
          else Some (hi, lo)
      | [] =>
          if negb (Nat.eqb n 8) then None
          else if first_empty || last_empty then None
          else Some (n, 0%nat)
      | _ => None
      end in
    match bounds with
    | None => false
    | Some (hi, lo) =>
        forallb hextet_ok (firstn hi parts) && forallb hextet_ok (skipn (n - lo) parts)
    end
  end.

(** [IPv6Address(s)] succeeds: no '/', a scope id after '%' that is
    non-empty and holds no '%', and a valid address before it. *)
Definition ipv6_address_ok (s : list ascii) : bool :=
  if has_char 47 s then false
  else let '(addr, sep, scope) := py_partition 37 s in
       if sep && (is_empty scope || has_char 37 scope) then false
       else ipv6_int_ok addr.

(** [re.match(r"\Av[a-fA-F0-9]+\..+\Z", hostname)] for a hostname that
    starts with 'v' (the netloc holds no newline, so '.' matches any
    character). *)
Fixpoint ipvfuture_rest (l : list ascii) (seen_hex : bool) : bool :=
  match l with
  | [] => false
  | c :: rest =>
      if is_hex_digit (code c) then ipvfuture_rest rest true
      else seen_hex && Nat.eqb (code c) 46 && negb (is_empty rest)
  end.

(** [ipaddress.ip_address(hostname)] in [_check_bracketed_host]: an
    IPv4 address is refused, an IPv6 address accepted, anything else
    raises ValueError. *)
Definition check_ip_address (hostname : list ascii) : result unit :=
  match ipv4_address hostname with
  | Some _ => Err ValueError
  | None => if ipv6_address_ok hostname then Ok tt else Err ValueError
  end.

(** [_check_bracketed_host(hostname)] *)
Definition check_bracketed_host (hostname : list ascii) : result unit :=
  match hostname with
  | c :: rest =>
      if Nat.eqb (code c) 118 then (if ipvfuture_rest rest false then Ok tt else Err ValueError)
      else check_ip_address hostname
  | [] => check_ip_address hostname
  end.

(** [_check_bracketed_netloc(netloc)] *)
Definition check_bracketed_netloc (netloc : list ascii) : result unit :=
  let hostname_and_port := rpartition_tail 64 netloc in
  match py_partition 91 hostname_and_port with
  | (before, true, bracketed) =>
      if negb (is_empty before) then Err ValueError
      else let '(hostname, _, port) := py_partition 93 bracketed in
           match port with
           | c :: _ => if Nat.eqb (code c) 58 then check_bracketed_host hostname else Err ValueError
           | [] => check_bracketed_host hostname
           end
  | (_, false, _) =>
      let '(hostname, _, _) := py_partition 58 hostname_and_port in
      check_bracketed_host hostname
  end.

Definition urlparse_netloc (address : string) : result string :=
  let l := list_ascii_of_string address in
  let l := filter (fun c => negb (Nat.eqb (code c) 9 || Nat.eqb (code c) 10 || Nat.eqb (code c) 13)) l in
  let l := (fix lstrip (l : list ascii) := match l with
            | c :: rest => if Nat.leb (code c) 32 then lstrip rest else l
            | [] => [] end) l in
  let rest :=
    match split_at_colon l with
    | Some ((c0 :: _) as sch, after) =>
        if is_alpha (code c0) && forallb (fun c => is_scheme_char (code c)) sch then after else l
    | _ => l
    end in
  let netloc :=
    match rest with
    | "/"%char :: "/"%char :: t => take_netloc t
    | _ => []
    end in
  let has n := existsb (fun c => Nat.eqb (code c) n) netloc in
  if xorb (has 91%nat) (has 93%nat) then Err ValueError
  else
    let? _ := (if has 91%nat && has 93%nat then check_bracketed_netloc netloc else Ok tt) in
    Ok (string_of_list_ascii netloc).

(** [register_node(address)]: [self.nodes.add(parsed_url.netloc)] *)
Definition register_node (address : string) : M unit :=
  n <- lift (urlparse_netloc address) ;;
  modify (fun st => if existsb (String.eqb n) (nodes st) then st
                     else set_nodes (nodes st ++ [n]) st).

(** [proof_of_work(last_proof)]: the unbounded search from 0; [None]
    when [fuel] tries were not enough. *)
Fixpoint pow_search (fuel : nat) (last_proof : json) (proof : Z) : option Z :=
  match fuel with
  | O => None
  | S fuel' =>
      if valid_proof last_proof (JInt proof) then Some proof
      else pow_search fuel' last_proof (proof + 1)
  end.

Definition proof_of_work (fuel : nat) (last_proof : json) : option Z :=
  pow_search fuel last_proof 0.

(** [Blockchain()]: empty chain, buffer and node set, then
    [self.new_block(previous_hash='1', proof=100)]. *)
Definition empty_blockchain : Blockchain := mkBlockchain (JArr []) [] [].

Definition blockchain_init (timestamp : string) : Blockchain :=
  fst (new_block timestamp (JInt 100) (JStr "1") empty_blockchain).

Definition search (r : option Z) : M Z :=
  fun st => match r with Some p => (st, Returns p) | None => (st, Running) end.

(** The [/mine] handler, on the module-level [blockchain]; the
    [node_identifier] is the node's uuid4 hex string. *)
Definition mine (fuel : nat) (node_identifier timestamp : string) : M json :=
  lb <- last_block ;;
  last_proof <- lift (py_getitem lb "proof") ;;
  proof <- search (proof_of_work fuel last_proof) ;;
  new_transaction (JStr "0") (JStr node_identifier) (JInt 1) ;;;
  block <- new_block timestamp (JInt proof) JNull ;;
  index <- lift (py_getitem block "index") ;;
  txs <- lift (py_getitem block "transactions") ;;
  prf <- lift (py_getitem block "proof") ;;
  ph <- lift (py_getitem block "previous_hash") ;;
  ret (JObj [("message"%string, JStr "New Block Forged"); ("index"%string, index);
             ("transactions"%string, txs); ("proof"%string, prf);
             ("previous_hash"%string, ph)]).

(** What [requests.get(f'http://{node}/chain')] gives: it raises, or
    returns a response with a status code and a body that [.json()]
    parses ([None] when it does not parse). *)
Inductive response : Type :=
| ConnectionFailed
| Reply (status_code : Z) (body : option json).

Definition response_json (body : option json) : result json :=
  match body with Some j => Ok j | None => Err JSONDecodeError end.

(** The [for node in neighbours] loop, carrying [max_length] and
    [new_chain] ([None] is Python's [None]). *)
Fixpoint resolve_loop (fetch : string -> response) (neighbours : list string)
    (max_length : json) (new_chain : option json) : result (json * option json) :=
  match neighbours with
  | [] => Ok (max_length, new_chain)
  | node :: rest =>
      match fetch node with
      | ConnectionFailed => Err RequestException
      | Reply status body =>
          if status =? 200 then
            let? j := response_json body in
            let? length := py_getitem j "length" in
            let? j' := response_json body in
            let? c := py_getitem j' "chain" in
            let? longer := py_gt length max_length in
            let? ok := (if longer then valid_chain c else Ok false) in
            if ok then resolve_loop fetch rest length (Some c)
            else resolve_loop fetch rest max_length new_chain
          else resolve_loop fetch rest max_length new_chain
      end
  end.

Definition opt_truthy (v : option json) : bool :=
  match v with Some c => py_truthy c | None => false end.

(** [resolve_conflicts()]; [fetch node] is the peer's reply. *)
Definition resolve_conflicts (fetch : string -> response) : M bool :=
  st <- get ;;
  n <- lift (py_len (chain st)) ;;
  r <- lift (resolve_loop fetch (nodes st) (JInt n) None) ;;
  match snd r with
  | Some c => if py_truthy c then modify (set_chain c) ;;; ret true else ret false
  | None => ret false
  end.

(* ------------------------------------------------------------------ *)
(** ** The Flask view functions *)

(** What the [/transactions/new] view returns besides its status code:
    a plain text body, or the dict
    [{'message': f'Transaction will be added to Block {index}'}], kept
    with the [index] it formats. *)
Inductive http_body : Type :=
| BodyText (s : string)
| BodyTxAdded (index : index_value).

(** [k in values] for a string [k]: key membership for a dict, element
    equality for a list, substring for a str; other values are not
    iterable. *)
Definition py_contains (k : string) (v : json) : result bool :=
  match v with
  | JObj l => Ok (existsb (fun kv => String.eqb (fst kv) k) l)
  | JArr l => Ok (existsb (fun x => py_eq_str x k) l)
  | JStr s => Ok (match String.index 0 k s with Some _ => true | None => false end)
  | _ => Err TypeError
  end.

(** [all(k in values for k in ks)], stopping at the first false. *)
Fixpoint all_in (ks : list string) (v : json) : result bool :=
  match ks with
  | [] => Ok true
  | k :: rest => let? b := py_contains k v in if b then all_in rest v else Ok false
  end.

Definition required : list string := ["sender"%string; "recipient"%string; "amount"%string].

Module Views.

(** [POST /transactions/new]; [values] is what [request.get_json()]
    returned. *)
Definition new_transaction (values : json) : M (http_body * Z) :=
  ok <- lift (all_in required values) ;;
  if negb ok then ret (BodyText "Missing values", 400)
  else
    sender <- lift (py_getitem values "sender") ;;
    recipient <- lift (py_getitem values "recipient") ;;
    amount <- lift (py_getitem values "amount") ;;
    index <- new_transaction sender recipient amount ;;
    ret (BodyTxAdded index, 201).

End Views.

(* ------------------------------------------------------------------ *)
(** ** Reachable states *)

(** One call of a public method of [Blockchain] or of the [/mine]
    handler, on any arguments.  A [mine] call still searching for a
    proof has not completed and makes no step. *)
Inductive method_step : Blockchain -> Blockchain -> Prop :=
| ms_new_transaction s r a st : method_step st (fst (new_transaction s r a st))
| ms_new_block ts p ph st : method_step st (fst (new_block ts p ph st))
| ms_register_node addr st : method_step st (fst (register_node addr st))
| ms_resolve fetch st : method_step st (fst (resolve_conflicts fetch st))
| ms_mine fuel nid ts st :
    snd (mine fuel nid ts st) <> Running -> method_step st (fst (mine fuel nid ts st)).

(** The calls the HTTP endpoints make: [new_block] only from [mine]. *)
Inductive api_step : Blockchain -> Blockchain -> Prop :=
| as_new_transaction s r a st : api_step st (fst (new_transaction s r a st))
| as_register_node addr st : api_step st (fst (register_node addr st))
| as_resolve fetch st : api_step st (fst (resolve_conflicts fetch st))
| as_mine fuel nid ts st :
    snd (mine fuel nid ts st) <> Running -> api_step st (fst (mine fuel nid ts st)).

(** The calls of a node that never runs consensus. *)
Inductive local_step : Blockchain -> Blockchain -> Prop :=
| ls_new_transaction s r a st : local_step st (fst (new_transaction s r a st))
| ls_new_block ts p ph st : local_step st (fst (new_block ts p ph st))
| ls_register_node addr st : local_step st (fst (register_node addr st))
| ls_mine fuel nid ts st : local_step st (fst (mine fuel nid ts st)).

Inductive reachable (step : Blockchain -> Blockchain -> Prop) : Blockchain -> Prop :=
| reach_init ts : reachable step (blockchain_init ts)
| reach_step st st' : reachable step st -> step st st' -> reachable step st'.

(** The elements of a sequence, as [chain[i]] reads them. *)
Definition py_elements (v : json) : option (list json) :=
  match v with
  | JArr l => Some l
  | JStr s => Some (map (fun c => JStr (String c EmptyString)) (list_ascii_of_string s))
  | _ => None
  end.

(** The chain invariant of the spec, block by block: the block's
    [previous_hash] is the hash of the block before it, and [valid_proof]
    holds between their proofs. *)
Definition link_ok (prev block : json) : bool :=
  match py_getitem block "previous_hash" with
  | Ok ph => py_eq_str ph (hash prev)
  | Err _ => false
  end &&
  match py_getitem prev "proof", py_getitem block "proof" with
  | Ok lp, Ok bp => valid_proof lp bp
  | _, _ => false
  end.

Fixpoint links_ok (prev : json) (rest : list json) : bool :=
  match rest with
  | [] => true
  | b :: t => link_ok prev b && links_ok b t
  end.

Definition chain_links_ok (l : list json) : bool :=
  match l with [] => true | b :: t => links_ok b t end.

Definition chain_invariant (c : json) : Prop :=
  exists l, py_elements c = Some l /\ chain_links_ok l = true.

Definition genesis_at (timestamp : string) : json :=
  JObj [("index"%string, JInt 1); ("timestamp"%string, JFloat timestamp);
        ("transactions"%string, JArr []); ("proof"%string, JInt 100);
        ("previous_hash"%string, JStr "1")].

Definition block2_at (timestamp : string) (genesis : json) (txs : list json) : json :=
  JObj [("index"%string, JInt 2); ("timestamp"%string, JFloat timestamp);
        ("transactions"%string, JArr txs); ("proof"%string, JInt 35293);
        ("previous_hash"%string, JStr (hash genesis))].

(** A chain whose first block is not the genesis block and whose
    blocks carry indices other than their positions. *)
Definition odd_first_block : json :=
  JObj [("index"%string, JInt 42); ("proof"%string, JInt 88); ("previous_hash"%string, JStr "x")].
Definition odd_second_block : json :=
  JObj [("index"%string, JInt 7); ("proof"%string, JInt 484);
        ("previous_hash"%string, JStr (hash odd_first_block))].

(** The order of [json.dumps(sort_keys=True)] on keys. *)
Definition key_lt {A} (x y : string * A) : Prop := String.compare (fst x) (fst y) = Lt.

(** A peer that answered 200 with a chain that passes [valid_chain] and a
    length above [bound]. *)
Definition qualifies (fetch : string -> response) (node : string) (bound len c : json) : Prop :=
  exists j, fetch node = Reply 200 (Some j) /\ py_getitem j "length" = Ok len /\
            py_getitem j "chain" = Ok c /\ py_gt len bound = Ok true /\ valid_chain c = Ok true.

(** A peer's [/chain] reply, [{'length': len, 'chain': c}]. *)
Definition peer_reply (len : Z) (c : json) : response :=
  Reply 200 (Some (JObj [("length"%string, JInt len); ("chain"%string, c)])).

(** A two-block chain built by this code. *)
Definition chain2 : json :=
  JArr [genesis_at "1700000000.5"; block2_at "1700000005.25" (genesis_at "1700000000.5") []].

(** A fresh node that registered peer [a], then peer [b]. *)
Definition node_a : Blockchain :=
  fst (register_node "http://a:5000" (blockchain_init "1700000100.0")).
Definition node_ab : Blockchain :=
  fst (register_node "http://b:5000" node_a).
Definition node_b : Blockchain :=
  fst (register_node "http://b:5000" (blockchain_init "1700000100.0")).

(** Peer [a] cannot be reached; peer [b] serves [chain2]. *)
Definition fetch_a_down (node : string) : response :=
  if String.eqb node "a:5000" then ConnectionFailed else peer_reply 2 chain2.

(** The fresh node [node_a] after adopting peer [a]'s chain
    [odd_first_block; odd_second_block], reported with length 2. *)
Definition adopted_odd : Blockchain :=
  fst (resolve_conflicts (fun _ => peer_reply 2 (JArr [odd_first_block; odd_second_block])) node_a).

(** [node_a] after adopting a one-block chain whose block has no
    [index], and after adopting the str ['x'] as its chain, each
    reported with length 5. *)
Definition adopted_noindex : Blockchain :=
  fst (resolve_conflicts (fun _ => peer_reply 5 (JArr [JObj [("proof"%string, JInt 1)]])) node_a).
Definition adopted_str : Blockchain :=
  fst (resolve_conflicts (fun _ => peer_reply 5 (JStr "x")) node_a).

(** A node whose last proof 30916 is solved by proof 2, with one
    pending transaction. *)
Definition small_pow_node : Blockchain :=
  mkBlockchain (JArr [JObj [("index"%string, JInt 1); ("proof"%string, JInt 30916)]])
    [JObj [("sender"%string, JStr "A"); ("recipient"%string, JStr "B"); ("amount"%string, JInt 10)]]
    [].

(** [node_a] after adopting a two-block peer chain whose last proof
    30916 has the small successor 2, then receiving a transaction and
    mining the third block. *)
Definition pow_first_block : json :=
  JObj [("index"%string, JInt 1); ("proof"%string, JInt 48360); ("previous_hash"%string, JStr "1")].
Definition pow_second_block : json :=
  JObj [("index"%string, JInt 2); ("proof"%string, JInt 30916);
        ("previous_hash"%string, JStr (hash pow_first_block))].
Definition adopted_pow : Blockchain :=
  fst (resolve_conflicts (fun _ => peer_reply 2 (JArr [pow_first_block; pow_second_block])) node_a).
Definition pending_pow : Blockchain :=
  fst (new_transaction (JStr "A") (JStr "B") (JInt 10) adopted_pow).
Definition mined_pow : Blockchain :=
  fst (mine 3 "node" "1700000400.0" pending_pow).

Section Tests.
Local Open Scope string_scope.

Example sha_empty : Sha256.hexdigest [] =
  "e3b0c44298fc1c149afbf4c8996fb92427ae41e4649b934ca495991b7852b855"%string.
Proof. vm_compute. reflexivity. Qed.

Example sha_abc : Sha256.hexdigest (utf8_encode "abc") =
  "ba7816bf8f01cfea414140de5dae2223b00361a396177a9cb410ff61f20015ad"%string.
Proof. vm_compute. reflexivity. Qed.

Example sha_pow : Sha256.hexdigest (utf8_encode "10035293") =
  "0000c415de5ceea33c02daa85a1c218ecca1b1c9e9864ed34d183597844de8e2"%string.
Proof. vm_compute. reflexivity. Qed.

Example hash_genesis :
  hash (JObj [("index", JInt 1); ("timestamp", JFloat "1700000000.5");
              ("transactions", JArr []); ("proof", JInt 100); ("previous_hash", JStr "1")]) =
  "7dd0b05c7a6aafba30a3d6c7102d235385a934972e4c066bcea9f6adcbae98f2"%string.
Proof. vm_compute. reflexivity. Qed.

Example hash_escapes :
  hash (JObj [("zz", JArr [JInt 1; JInt (-20); JNull; JBool true; JFloat "1.5e-07"]);
              ("a", JStr (String (ascii_of_nat 233) (String (ascii_of_nat 127) (String (ascii_of_nat 10)
                     (String dquote (String "x" (String backslash EmptyString)))))));
              ("m", JObj [("y", JInt 1); ("b", JStr (String (ascii_of_nat 9) EmptyString))])]) =
  "c79cdd53aa2475e3280c8638d23c2165d5272c443a67d402e5a957000c6973be"%string.
Proof. vm_compute. reflexivity. Qed.

Example str_containers :
  Sha256.hexdigest (utf8_encode
    (py_str (JArr [JStr "a"; JStr "b'c"; JStr (String (ascii_of_nat 233) (String (ascii_of_nat 173) EmptyString))])
     ++ py_str (JObj [("k", JNull)]))%string) =
  "8571eb6b8ff87cf609cfd501c418523ddab4a0c295a6e8414d30557547c26688"%string.
Proof. vm_compute. reflexivity. Qed.

End Tests.

Section Tests2.
Local Open Scope string_scope.
Example init_ok : blockchain_init "1700000000.5" = mkBlockchain (JArr [genesis_at "1700000000.5"]) [] [].
Proof. reflexivity. Qed.
Example vp_ok : valid_proof (JInt 100) (JInt 35293) = true.
Proof. vm_compute. reflexivity. Qed.
Example chain2_ok : valid_chain (JArr [genesis_at "1700000000.5"; block2_at "1700000005.25" (genesis_at "1700000000.5") []]) = Ok true.
Proof. vm_compute. reflexivity. Qed.
Example urlparse_brackets :
  map urlparse_netloc ["http://[::1]:5000"; "http://[fe80::1%eth0]:80"; "http://[::ffff:1.2.3.4]";
                       "http://[v1.x]"; "http://[abc]"; "http://a[::1]"; "http://[1.2.3.4]";
                       "http://[1::2::3]"] =
  [Ok "[::1]:5000"; Ok "[fe80::1%eth0]:80"; Ok "[::ffff:1.2.3.4]"; Ok "[v1.x]";
   Err ValueError; Err ValueError; Err ValueError; Err ValueError].
Proof. vm_compute. reflexivity. Qed.
Example mined_pow_ok :
  py_len (chain mined_pow) = Ok 3 /\ current_transactions mined_pow = [] /\
  valid_chain (chain mined_pow) = Ok true.
Proof. vm_compute. repeat split. Qed.
End Tests2.

(* ================================================================== *)
(** * Properties *)

(** ** Proof-of-work search *)

Section PowSearch.
Variable last_proof : json.

Lemma pow_search_sound : forall fuel start p,
  pow_search fuel last_proof start = Some p ->
  start <= p /\ valid_proof last_proof (JInt p) = true /\
  (forall k, start <= k < p -> valid_proof last_proof (JInt k) = false).
Proof.
  induction fuel as [|fuel IH]; intros start p H; simpl in H; [discriminate|].
  destruct (valid_proof last_proof (JInt start)) eqn:Hv.
  - injection H as <-. repeat split; [lia | exact Hv | intros; lia].
  - destruct (IH _ _ H) as (Hle & Hp & Hlt). repeat split; [lia | exact Hp |].
    intros k Hk. destruct (Z.eq_dec k start) as [->|Hne]; [exact Hv|].
    apply Hlt; lia.
Qed.

Lemma pow_search_complete : forall d start n,
  n = start + Z.of_nat d -> valid_proof last_proof (JInt n) = true ->
  exists p, pow_search (S d) last_proof start = Some p.
Proof.
  induction d as [|d IH]; intros start n Hn Hv; simpl.
  - replace start with n by lia. rewrite Hv. eauto.
  - destruct (valid_proof last_proof (JInt start)); [eauto|].
    apply (IH (start + 1) n); [lia | exact Hv].
Qed.

End PowSearch.

(** C1: [valid_proof(last_proof, proof)] tests the first four
    characters of the SHA-256 hex digest of the two decimal strings
    concatenated against "0000"; when some non-negative integer passes,
    [proof_of_work(last_proof)] terminates with the least such integer,
    and every terminating run returns that value. *)
Theorem valid_proof_spec_and_proof_of_work_least (last_proof : Z) :
  (forall proof : Z,
     valid_proof (JInt last_proof) (JInt proof) = true <->
     substring 0 4 (Sha256.hexdigest (utf8_encode (dec_Z last_proof ++ dec_Z proof)%string))
       = "0000"%string) /\
  ((exists n, 0 <= n /\ valid_proof (JInt last_proof) (JInt n) = true) ->
   exists p,
     (exists fuel, proof_of_work fuel (JInt last_proof) = Some p) /\
     0 <= p /\ valid_proof (JInt last_proof) (JInt p) = true /\
     (forall k, 0 <= k < p -> valid_proof (JInt last_proof) (JInt k) = false) /\
     (forall fuel p', proof_of_work fuel (JInt last_proof) = Some p' -> p' = p)).
Proof.
  split.
  - intros proof. unfold valid_proof. simpl. apply String.eqb_eq.
  - intros (n & Hn & Hv).
    destruct (pow_search_complete (JInt last_proof) (Z.to_nat n) 0 n ltac:(lia) Hv)
      as [p Hp].
    destruct (pow_search_sound _ _ _ _ Hp) as (Hle & Hvp & Hmin).
    exists p. split; [exists (S (Z.to_nat n)); exact Hp|].
    repeat split; [lia | exact Hvp | intros k Hk; apply Hmin; lia |].
    intros fuel p' Hp'.
    destruct (pow_search_sound _ _ _ _ Hp') as (Hle' & Hvp' & Hmin').
    destruct (Z.lt_total p p') as [Hlt|[Heq|Hgt]]; [| exact (eq_sym Heq) |].
    + rewrite (Hmin' p ltac:(lia)) in Hvp. discriminate.
    + rewrite (Hmin p' ltac:(lia)) in Hvp'. discriminate.
Qed.

Lemma valid_proof_spec_and_proof_of_work_least_witness :
  proof_of_work 485 (JInt 88) = Some 484 /\
  exists p, (exists fuel, proof_of_work fuel (JInt 88) = Some p) /\ 0 <= p /\
     valid_proof (JInt 88) (JInt p) = true /\
     (forall k, 0 <= k < p -> valid_proof (JInt 88) (JInt k) = false) /\
     (forall fuel p', proof_of_work fuel (JInt 88) = Some p' -> p' = p).
Proof.
  split; [vm_compute; reflexivity|].
  apply (proj2 (valid_proof_spec_and_proof_of_work_least 88)).
  exists 484. split; [lia | vm_compute; reflexivity].
Defined.

(** ** valid_chain as a walk over the blocks *)

Ltac zbool :=
  symmetry;
  first [ apply Z.ltb_lt; lia | apply Z.ltb_ge; lia
        | apply andb_true_iff; split; first [apply Z.leb_le | apply Z.ltb_lt]; lia ].

Lemma py_index_at_length : forall pre b t,
  py_index (JArr (pre ++ b :: t)) (Z.of_nat (List.length pre)) = Ok b.
Proof.
  intros pre b t. unfold py_index.
  rewrite length_app. simpl.
  replace (Z.of_nat (List.length pre) <? 0) with false by zbool.
  replace ((0 <=? Z.of_nat (List.length pre)) &&
           (Z.of_nat (List.length pre) <? Z.of_nat (List.length pre + S (List.length t))))
    with true by zbool.
  rewrite Nat2Z.id, nth_error_app2, Nat.sub_diag by lia. reflexivity.
Qed.

Lemma valid_chain_loop_walk : forall t pre b0 fuel,
  (List.length t < fuel)%nat ->
  valid_chain_loop fuel (JArr (pre ++ b0 :: t)) b0 (Z.of_nat (S (List.length pre))) = Ok true
  <-> links_ok b0 t = true.
Proof.
  induction t as [|b t IH]; intros pre b0 fuel Hfuel;
    (destruct fuel as [|fuel]; [lia|]); cbn [valid_chain_loop py_len bind_result].
  - rewrite length_app. cbn [List.length].
    replace (Z.of_nat (S (List.length pre)) <? Z.of_nat (List.length pre + 1)) with false by zbool.
    cbn [links_ok]. tauto.
  - rewrite length_app. cbn [List.length].
    replace (Z.of_nat (S (List.length pre)) <? Z.of_nat (List.length pre + S (S (List.length t))))
      with true by zbool.
    replace (pre ++ b0 :: b :: t) with ((pre ++ [b0]) ++ b :: t)
      by (rewrite <- app_assoc; reflexivity).
    replace (Z.of_nat (S (List.length pre))) with (Z.of_nat (List.length (pre ++ [b0])))
      by (rewrite length_app; simpl; lia).
    rewrite py_index_at_length. cbn [bind_result links_ok].
    unfold link_ok.
    destruct (py_getitem b "previous_hash") as [ph|e]; cbn [bind_result]; [|split; discriminate].
    destruct (py_eq_str ph (hash b0)); cbn [negb andb]; [|split; discriminate].
    destruct (py_getitem b0 "proof") as [lp|e]; cbn [bind_result]; [|split; discriminate].
    destruct (py_getitem b "proof") as [bp|e]; cbn [bind_result]; [|split; discriminate].
    destruct (valid_proof lp bp); cbn [negb andb]; [|split; discriminate].
    replace (Z.of_nat (List.length (pre ++ [b0])) + 1)
      with (Z.of_nat (S (List.length (pre ++ [b0])))) by lia.
    apply IH. simpl in Hfuel. lia.
Qed.

Lemma valid_chain_cons : forall b t,
  valid_chain (JArr (b :: t)) = Ok true <-> links_ok b t = true.
Proof.
  intros b t. unfold valid_chain. simpl.
  rewrite SuccNat2Pos.id_succ.
  apply (valid_chain_loop_walk t [] b (S (List.length t))). lia.
Qed.

Lemma valid_chain_nil : valid_chain (JArr []) = Err IndexError.
Proof. reflexivity. Qed.

Lemma string_get_lt : forall n s c, String.get n s = Some c -> (n < String.length s)%nat.
Proof.
  intros n s; revert n. induction s as [|c' s IH]; intros [|n] c H; simpl in *;
    try discriminate; [lia | specialize (IH n c H); lia].
Qed.

Lemma py_index_str : forall s i c,
  0 <= i -> String.get (Z.to_nat i) s = Some c ->
  py_index (JStr s) i = Ok (JStr (String c EmptyString)).
Proof.
  intros s i c Hi Hg. pose proof (string_get_lt _ _ _ Hg) as Hlt. unfold py_index.
  replace (i <? 0) with false by zbool.
  replace ((0 <=? i) && (i <? Z.of_nat (String.length s))) with true by zbool.
  rewrite Hg. reflexivity.
Qed.

Lemma valid_chain_str : forall s,
  valid_chain (JStr s) = Ok true -> String.length s = 1%nat.
Proof.
  intros [|c [|c' s]] H; [discriminate | reflexivity | ].
  unfold valid_chain in H.
  rewrite (py_index_str _ 0 c) in H by (lia || reflexivity).
  cbn [bind_result py_len] in H. rewrite Nat2Z.id in H.
  cbn [String.length valid_chain_loop py_len bind_result] in H.
  replace (1 <? Z.of_nat (S (S (String.length s)))) with true in H by zbool.
  rewrite (py_index_str _ 1 c') in H by (lia || reflexivity).
  discriminate.
Qed.

Lemma valid_chain_true_shape : forall c,
  valid_chain c = Ok true ->
  (exists b t, c = JArr (b :: t) /\ links_ok b t = true) \/
  (exists ch, c = JStr (String ch EmptyString)).
Proof.
  intros [| | | | s | [|b t] | fs] H; try discriminate.
  - right. pose proof (valid_chain_str s H) as Hl.
    destruct s as [|ch [|? ?]]; try discriminate. eauto.
  - left. exists b, t. split; [reflexivity|]. apply valid_chain_cons. exact H.
Qed.

Lemma valid_chain_invariant : forall c,
  valid_chain c = Ok true -> chain_invariant c.
Proof.
  intros c H. destruct (valid_chain_true_shape c H) as [(b & t & -> & Hl) | (ch & ->)].
  - exists (b :: t). split; [reflexivity | exact Hl].
  - eexists. split; [reflexivity | reflexivity].
Qed.

Lemma valid_chain_truthy : forall c, valid_chain c = Ok true -> py_truthy c = true.
Proof.
  intros c H. destruct (valid_chain_true_shape c H) as [(b & t & -> & _) | (ch & ->)];
    reflexivity.
Qed.

(** ** Dict updates *)

Lemma find_app {A} (p : A -> bool) : forall l1 l2,
  find p (l1 ++ l2) = match find p l1 with Some x => Some x | None => find p l2 end.
Proof.
  induction l1 as [|x l1 IH]; intros l2; simpl; [reflexivity|].
  destruct (p x); [reflexivity | apply IH].
Qed.

Lemma find_key_none : forall (l : list (string * json)) k,
  existsb (fun kv => String.eqb (fst kv) k) l = false ->
  find (fun kv => String.eqb (fst kv) k) l = None.
Proof.
  induction l as [|kv l IH]; intros k H; simpl in *; [reflexivity|].
  apply orb_false_iff in H as [H1 H2]. rewrite H1. apply IH. exact H2.
Qed.

Lemma getitem_setitem_same : forall b k v b',
  py_setitem b k v = Ok b' -> py_getitem b' k = Ok v.
Proof.
  intros [| | | | | | l] k v b' H; try discriminate.
  injection H as <-. unfold py_getitem.
  destruct (existsb (fun kv => String.eqb (fst kv) k) l) eqn:He.
  - induction l as [|kv l IH]; simpl in *; [discriminate|].
    destruct (String.eqb (fst kv) k) eqn:Hk; simpl.
    + rewrite String.eqb_refl. reflexivity.
    + rewrite Hk. apply IH. exact He.
  - rewrite find_app, find_key_none by exact He. simpl.
    rewrite String.eqb_refl. reflexivity.
Qed.

Lemma getitem_setitem_other : forall b k v b' k',
  py_setitem b k v = Ok b' -> k' <> k -> py_getitem b' k' = py_getitem b k'.
Proof.
  intros [| | | | | | l] k v b' k' H Hne; try discriminate.
  injection H as <-. unfold py_getitem.
  assert (Hkk : String.eqb k k' = false) by (apply String.eqb_neq; congruence).
  destruct (existsb (fun kv => String.eqb (fst kv) k) l).
  - induction l as [|kv l IH]; simpl; [reflexivity|].
    destruct (String.eqb (fst kv) k) eqn:Hk; simpl.
    + apply String.eqb_eq in Hk. rewrite Hk, !Hkk. apply IH.
    + destruct (String.eqb (fst kv) k'); [reflexivity | apply IH].
  - rewrite find_app.
    destruct (find (fun kv => String.eqb (fst kv) k') l); [reflexivity|].
    simpl. rewrite Hkk. reflexivity.
Qed.

(** ** Links of a chain *)

Lemma last_cons_cons {A} : forall (l : list A) (x y : A), last (y :: l) x = last l y.
Proof.
  induction l as [|z l IH]; intros x y; [reflexivity|].
  change (last (z :: l) x = last (z :: l) y). rewrite !IH. reflexivity.
Qed.

Lemma links_ok_app : forall l1 x l2,
  links_ok x (l1 ++ l2) = links_ok x l1 && links_ok (last l1 x) l2.
Proof.
  induction l1 as [|y l1 IH]; intros x l2; cbn [links_ok app]; [reflexivity|].
  rewrite IH, andb_assoc, last_cons_cons. reflexivity.
Qed.

Lemma link_ok_previous_hash : forall prev b v,
  link_ok prev b = true -> py_getitem b "previous_hash" = Ok v -> v = JStr (hash prev).
Proof.
  intros prev b v H Hv. unfold link_ok in H. rewrite Hv in H.
  apply andb_true_iff in H as [H _].
  destruct v; try discriminate. simpl in H. apply String.eqb_eq in H. subst. reflexivity.
Qed.

Lemma link_ok_same_fields : forall prev b b',
  py_getitem b' "previous_hash" = py_getitem b "previous_hash" ->
  py_getitem b' "proof" = py_getitem b "proof" ->
  link_ok prev b' = link_ok prev b.
Proof. intros prev b b' H1 H2. unfold link_ok. rewrite H1, H2. reflexivity. Qed.

(** C4 (code bug).  A chain of exactly one block validates whatever the
    block holds, so in particular the genesis-only chain does; but the
    empty chain is not found valid: [valid_chain([])] raises IndexError
    at the unguarded [chain[0]].  A peer answering
    [{'length': 5, 'chain': []}] therefore makes [resolve_conflicts] on a
    fresh node with that one peer raise IndexError. *)
Theorem valid_chain_empty_raises :
  (forall b, valid_chain (JArr [b]) = Ok true) /\
  valid_chain (JArr []) = Err IndexError /\
  resolve_conflicts (fun _ => peer_reply 5 (JArr [])) node_a = (node_a, Raises IndexError).
Proof.
  split; [intros b; apply valid_chain_cons; reflexivity|].
  split; [exact valid_chain_nil | vm_compute; reflexivity].
Qed.

Lemma py_eq_str_other : forall v s, v <> JStr s -> py_eq_str v s = false.
Proof.
  intros [| | | |t| |] s H; try reflexivity. simpl.
  apply String.eqb_neq. intros ->. apply H. reflexivity.
Qed.

(** The loop walks the blocks whose links hold and returns False at the
    first block whose [previous_hash] is not the hash of the block
    before it. *)
Lemma valid_chain_loop_mismatch : forall mid pre b0 b t fuel ph,
  (List.length mid + List.length (b :: t) < fuel)%nat ->
  links_ok b0 mid = true ->
  py_getitem b "previous_hash" = Ok ph -> py_eq_str ph (hash (last mid b0)) = false ->
  valid_chain_loop fuel (JArr (pre ++ b0 :: mid ++ b :: t)) b0 (Z.of_nat (S (List.length pre))) = Ok false.
Proof.
  induction mid as [|m mid IH]; intros pre b0 b t fuel ph Hfuel Hl Hph Hne;
    (destruct fuel as [|fuel]; [simpl in Hfuel; lia|]); cbn [valid_chain_loop py_len bind_result].
  - cbn [app]. rewrite length_app. cbn [List.length].
    replace (Z.of_nat (S (List.length pre)) <? Z.of_nat (List.length pre + S (S (List.length t))))
      with true by zbool.
    replace (pre ++ b0 :: b :: t) with ((pre ++ [b0]) ++ b :: t)
      by (rewrite <- app_assoc; reflexivity).
    replace (Z.of_nat (S (List.length pre))) with (Z.of_nat (List.length (pre ++ [b0])))
      by (rewrite length_app; simpl; lia).
    rewrite py_index_at_length. cbn [bind_result]. cbn [last] in Hne.
    rewrite Hph. cbn [bind_result]. rewrite Hne. reflexivity.
  - cbn [app]. rewrite length_app. cbn [List.length].
    replace (Z.of_nat (S (List.length pre)) <? Z.of_nat (List.length pre + S (S (List.length (mid ++ b :: t)))))
      with true by zbool.
    replace (pre ++ b0 :: m :: mid ++ b :: t) with ((pre ++ [b0]) ++ m :: mid ++ b :: t)
      by (rewrite <- app_assoc; reflexivity).
    replace (Z.of_nat (S (List.length pre))) with (Z.of_nat (List.length (pre ++ [b0])))
      by (rewrite length_app; simpl; lia).
    rewrite py_index_at_length. cbn [bind_result].
    cbn [links_ok] in Hl. apply andb_true_iff in Hl as [Hlk Hl]. unfold link_ok in Hlk.
    destruct (py_getitem m "previous_hash") as [ph'|?]; [|discriminate]. cbn [bind_result].
    destruct (py_eq_str ph' (hash b0)); [|discriminate]. cbn [negb].
    destruct (py_getitem b0 "proof") as [lp|?]; [|discriminate]. cbn [bind_result].
    destruct (py_getitem m "proof") as [bp|?]; [|discriminate]. cbn [bind_result].
    destruct (valid_proof lp bp); [|discriminate]. cbn [negb].
    replace (Z.of_nat (List.length (pre ++ [b0])) + 1)
      with (Z.of_nat (S (List.length (pre ++ [b0])))) by lia.
    rewrite last_cons_cons in Hne.
    apply (IH _ _ _ _ _ ph); [simpl in Hfuel |- *; lia | exact Hl | exact Hph | exact Hne].
Qed.

(** C6: a non-empty chain validates exactly when every block's
    [previous_hash] is the hash of the block before it and [valid_proof]
    holds between their proofs; giving a non-first block of such a chain
    a different [previous_hash] makes [valid_chain] return False;
    changing the transactions of the last block is not detected. *)
Theorem valid_chain_links_and_mutations :
  (forall b t, valid_chain (JArr (b :: t)) = Ok true <-> links_ok b t = true) /\
  (forall pre b post v b',
     pre <> [] -> chain_links_ok (pre ++ b :: post) = true ->
     py_getitem b "previous_hash" <> Ok v ->
     py_setitem b "previous_hash" v = Ok b' ->
     valid_chain (JArr (pre ++ b' :: post)) = Ok false) /\
  (forall pre b v b',
     chain_links_ok (pre ++ [b]) = true ->
     py_setitem b "transactions" v = Ok b' ->
     valid_chain (JArr (pre ++ [b'])) = Ok true).
Proof.
  split; [exact valid_chain_cons|]. split.
  - intros [|p0 ps] b post v b' Hpre Hl Hne Hset; [congruence|].
    simpl in Hl. rewrite links_ok_app in Hl. cbn [links_ok] in Hl.
    apply andb_true_iff in Hl as [Hps Hl]. apply andb_true_iff in Hl as [Hl _].
    pose proof (getitem_setitem_same _ _ _ _ Hset) as Hb'.
    assert (Hv : v <> JStr (hash (last ps p0))).
    { intros ->. destruct (py_getitem b "previous_hash") as [ph|e] eqn:Hph.
      - pose proof (link_ok_previous_hash _ _ _ Hl Hph) as ->. exact (Hne eq_refl).
      - unfold link_ok in Hl. rewrite Hph in Hl. discriminate. }
    cbn [app]. unfold valid_chain. simpl. rewrite SuccNat2Pos.id_succ.
    apply (valid_chain_loop_mismatch ps [] p0 b' post _ v);
      [rewrite length_app; simpl; lia | exact Hps | exact Hb' | apply py_eq_str_other; exact Hv].
  - intros [|p0 ps] b v b' Hl Hset; simpl app.
    + apply valid_chain_cons. reflexivity.
    + apply valid_chain_cons. simpl in Hl.
      rewrite links_ok_app in Hl |- *. cbn [links_ok] in Hl |- *.
      rewrite (link_ok_same_fields _ b b'); [exact Hl| |];
        apply (getitem_setitem_other _ _ _ _ _ Hset); discriminate.
Qed.

(** C6 (counterexample): the two-block chain genesis, block 2 satisfies
    the link-and-proof invariant, and giving block 2 other transactions
    leaves [valid_chain] True. *)
Lemma valid_chain_mutation_undetected :
  let g := genesis_at "1700000000.5" in
  let b2 := block2_at "1700000005.25" g [] in
  let tx := JObj [("sender"%string, JStr "A"); ("recipient"%string, JStr "B");
                  ("amount"%string, JInt 10)] in
  chain_links_ok [g; b2] = true /\
  py_setitem b2 "transactions" (JArr [tx]) = Ok (block2_at "1700000005.25" g [tx]) /\
  valid_chain (JArr [g; block2_at "1700000005.25" g [tx]]) = Ok true.
Proof. vm_compute. repeat split. Qed.

Lemma py_gt_int : forall a b, py_gt (JInt a) (JInt b) = Ok (b <? a).
Proof.
  intros a b. unfold py_gt. simpl. rewrite !Z.mul_1_r, Z.gtb_ltb. reflexivity.
Qed.

(** C10: [valid_chain] checks only the links between consecutive
    blocks: any first block and any [index] values pass when the links
    hold, and [resolve_conflicts] adopts such a chain from a peer that
    reports a length above the local one. *)
Theorem valid_chain_ignores_genesis_and_index :
  (forall b t, links_ok b t = true -> valid_chain (JArr (b :: t)) = Ok true) /\
  (forall fetch st lc node b t m,
     chain st = JArr lc -> nodes st = [node] -> links_ok b t = true ->
     Z.of_nat (List.length lc) < m ->
     fetch node = Reply 200 (Some (JObj [("length"%string, JInt m); ("chain"%string, JArr (b :: t))])) ->
     resolve_conflicts fetch st = (set_chain (JArr (b :: t)) st, Returns true)).
Proof.
  split; [intros b t H; apply valid_chain_cons; exact H|].
  intros fetch st lc node b t m Hc Hn Hl Hm Hf.
  unfold resolve_conflicts, bind, get, lift, modify, ret.
  rewrite Hc, Hn. cbn [py_len resolve_loop]. rewrite Hf.
  simpl. rewrite !Z.mul_1_r.
  replace (m >? Z.of_nat (List.length lc)) with true
    by (symmetry; rewrite Z.gtb_ltb; apply Z.ltb_lt; lia).
  rewrite (proj2 (valid_chain_cons b t) Hl). reflexivity.
Qed.

Lemma valid_chain_ignores_genesis_and_index_witness :
  valid_chain (JArr [odd_first_block; odd_second_block]) = Ok true /\
  resolve_conflicts
    (fun _ => Reply 200 (Some (JObj [("length"%string, JInt 5);
                                     ("chain"%string, JArr [odd_first_block; odd_second_block])])))
    (set_nodes ["peer:5000"%string] (blockchain_init "1700000000.5")) =
  (set_chain (JArr [odd_first_block; odd_second_block])
     (set_nodes ["peer:5000"%string] (blockchain_init "1700000000.5")), Returns true).
Proof.
  assert (Hl : links_ok odd_first_block [odd_second_block] = true)
    by (vm_compute; reflexivity).
  split.
  - apply (proj1 valid_chain_ignores_genesis_and_index). exact Hl.
  - apply (proj2 valid_chain_ignores_genesis_and_index _ _ [genesis_at "1700000000.5"] "peer:5000"%string
             odd_first_block [odd_second_block] 5);
      [reflexivity | reflexivity | exact Hl | simpl; lia | reflexivity].
Defined.

Lemma valid_chain_links_and_mutations_witness :
  let g := genesis_at "1700000000.5" in
  let b2 := block2_at "1700000005.25" g [] in
  valid_chain (JArr [g; block2_at "1700000005.25" g [JInt 1]]) = Ok true /\
  valid_chain (JArr [g; JObj [("index"%string, JInt 2); ("timestamp"%string, JFloat "1700000005.25");
                             ("transactions"%string, JArr []); ("proof"%string, JInt 35293);
                             ("previous_hash"%string, JStr "0")]]) = Ok false.
Proof.
  intros g b2.
  assert (Hl : chain_links_ok ([g] ++ [b2]) = true) by (vm_compute; reflexivity).
  split.
  - apply (proj2 (proj2 valid_chain_links_and_mutations) [g] b2 (JArr [JInt 1])).
    + exact Hl.
    + vm_compute. reflexivity.
  - apply (proj1 (proj2 valid_chain_links_and_mutations) [g] b2 [] (JStr "0")).
    + discriminate.
    + exact Hl.
    + vm_compute. discriminate.
    + vm_compute. reflexivity.
Defined.

(** ** Key order of json.dumps(sort_keys=True) *)

Lemma ascii_compare_refl : forall c, Ascii.compare c c = Eq.
Proof. intros c. unfold Ascii.compare. apply N.compare_refl. Qed.

Lemma string_compare_refl : forall s, String.compare s s = Eq.
Proof. induction s as [|c s IH]; simpl; [reflexivity|]. rewrite ascii_compare_refl. exact IH. Qed.

Lemma string_compare_lt_trans : forall a b c,
  String.compare a b = Lt -> String.compare b c = Lt -> String.compare a c = Lt.
Proof.
  induction a as [|x a IH]; intros [|y b] [|z c] H1 H2; simpl in *; try discriminate; auto.
  destruct (Ascii.compare x y) eqn:E1; try discriminate;
    destruct (Ascii.compare y z) eqn:E2; try discriminate.
  - apply Ascii.compare_eq_iff in E1, E2. subst. rewrite ascii_compare_refl. eauto.
  - apply Ascii.compare_eq_iff in E1. subst. rewrite E2. reflexivity.
  - apply Ascii.compare_eq_iff in E2. subst. rewrite E1. reflexivity.
  - unfold Ascii.compare in *. apply N.compare_lt_iff in E1, E2.
    replace (N.compare (N_of_ascii x) (N_of_ascii z)) with Lt
      by (symmetry; apply N.compare_lt_iff; eapply N.lt_trans; eauto).
    reflexivity.
Qed.

Lemma insert_item_perm {A} : forall (kv : string * A) l, Permutation (insert_item kv l) (kv :: l).
Proof.
  intros kv l. induction l as [|kv' l IH]; simpl; [reflexivity|].
  destruct (String.compare (fst kv) (fst kv')); try reflexivity.
  rewrite IH. apply perm_swap.
Qed.

Lemma sort_items_perm {A} : forall l : list (string * A), Permutation (sort_items l) l.
Proof.
  induction l as [|kv l IH]; simpl; [reflexivity|].
  rewrite insert_item_perm, IH. reflexivity.
Qed.

Lemma insert_item_sorted {A} : forall (kv : string * A) l,
  StronglySorted key_lt l -> ~ In (fst kv) (map fst l) ->
  StronglySorted key_lt (insert_item kv l).
Proof.
  intros kv l. induction l as [|kv' l IH]; intros Hs Hn; simpl.
  - repeat constructor.
  - inversion Hs as [|? ? Hs' Hf]; subst.
    destruct (String.compare (fst kv) (fst kv')) eqn:Hc.
    + apply String.compare_eq_iff in Hc. exfalso. apply Hn. left. congruence.
    + constructor; [exact Hs|]. constructor; [exact Hc|].
      eapply Forall_impl; [|exact Hf]. intros y Hy. eapply string_compare_lt_trans; eauto.
    + constructor.
      * apply IH; [exact Hs'|]. intros Hi. apply Hn. right. exact Hi.
      * eapply Permutation_Forall; [symmetry; apply insert_item_perm|].
        constructor; [|exact Hf]. unfold key_lt. rewrite String.compare_antisym, Hc. reflexivity.
Qed.

Lemma sort_items_sorted {A} : forall l : list (string * A),
  NoDup (map fst l) -> StronglySorted key_lt (sort_items l).
Proof.
  induction l as [|kv l IH]; intros Hd; simpl; [constructor|].
  inversion Hd as [|? ? Hn Hd']; subst.
  apply insert_item_sorted; [apply IH; exact Hd'|].
  intros Hi. apply Hn. eapply Permutation_in; [|exact Hi].
  apply Permutation_map. apply sort_items_perm.
Qed.

Lemma strongly_sorted_perm_eq {A} : forall a b : list (string * A),
  StronglySorted key_lt a -> StronglySorted key_lt b -> Permutation a b -> a = b.
Proof.
  induction a as [|x a IH]; intros [|y b] Ha Hb Hp.
  - reflexivity.
  - apply Permutation_nil in Hp. discriminate.
  - symmetry in Hp. apply Permutation_nil in Hp. discriminate.
  - inversion Ha as [|? ? Ha' Hfa]; inversion Hb as [|? ? Hb' Hfb]; subst.
    destruct (Permutation_in x Hp (or_introl eq_refl)) as [<-|Hx].
    + f_equal. apply IH; [exact Ha' | exact Hb' | eapply Permutation_cons_inv; exact Hp].
    + exfalso.
      pose proof (proj1 (Forall_forall _ _) Hfb x Hx) as H1.
      destruct (Permutation_in y (Permutation_sym Hp) (or_introl eq_refl)) as [->|Hy].
      * unfold key_lt in H1. rewrite string_compare_refl in H1. discriminate.
      * pose proof (proj1 (Forall_forall _ _) Hfa y Hy) as H2.
        unfold key_lt in H1, H2.
        pose proof (string_compare_lt_trans _ _ _ H2 H1) as H3.
        rewrite string_compare_refl in H3. discriminate.
Qed.

Lemma sort_items_perm_eq {A} : forall a b : list (string * A),
  NoDup (map fst a) -> Permutation a b -> sort_items a = sort_items b.
Proof.
  intros a b Hd Hp.
  assert (Hd' : NoDup (map fst b)) by (eapply Permutation_NoDup; [apply Permutation_map|]; eauto).
  apply strongly_sorted_perm_eq; [apply sort_items_sorted; exact Hd | apply sort_items_sorted; exact Hd'|].
  rewrite !sort_items_perm. exact Hp.
Qed.

(** C9: [hash(block)] depends only on the block's fields and their
    values: two dicts with the same items inserted in different orders
    have the same digest (and, being a function of its argument, [hash]
    gives the same digest on every call). *)
Theorem hash_insertion_order_independent : forall fields1 fields2,
  NoDup (map fst fields1) -> Permutation fields1 fields2 ->
  hash (JObj fields1) = hash (JObj fields2).
Proof.
  intros f1 f2 Hd Hp. unfold hash. f_equal. f_equal. simpl dumps.
  set (g := fun kv : string * json => let '(k, x) := kv in (k, dumps x)).
  assert (Hfst : forall l, map fst (map g l) = map fst l)
    by (intros l; rewrite map_map; apply map_ext; intros [k x]; reflexivity).
  rewrite (sort_items_perm_eq (map g f1) (map g f2)).
  - reflexivity.
  - rewrite Hfst. exact Hd.
  - apply Permutation_map. exact Hp.
Qed.

Lemma hash_insertion_order_independent_witness :
  hash (JObj [("index"%string, JInt 1); ("timestamp"%string, JFloat "1700000000.5");
              ("transactions"%string, JArr []); ("proof"%string, JInt 100);
              ("previous_hash"%string, JStr "1")]) =
  hash (JObj (rev [("index"%string, JInt 1); ("timestamp"%string, JFloat "1700000000.5");
                   ("transactions"%string, JArr []); ("proof"%string, JInt 100);
                   ("previous_hash"%string, JStr "1")])).
Proof.
  apply hash_insertion_order_independent; [|apply Permutation_rev].
  repeat constructor; simpl; intros H; repeat (destruct H as [H|H]; [discriminate|]); exact H.
Defined.

(** ** Python's [>] on numbers *)

Lemma num_gt_fin_at : forall m1 e1 m2 e2 e, e <= e1 -> e <= e2 ->
  num_gt (NFin m1 e1) (NFin m2 e2) = (m1 * 10 ^ (e1 - e) >? m2 * 10 ^ (e2 - e)).
Proof.
  intros m1 e1 m2 e2 e H1 H2. unfold num_gt.
  set (e0 := Z.min e1 e2).
  assert (He0 : e <= e0 /\ e0 <= e1 /\ e0 <= e2) by (unfold e0; lia).
  replace (e1 - e) with ((e1 - e0) + (e0 - e)) by lia.
  replace (e2 - e) with ((e2 - e0) + (e0 - e)) by lia.
  rewrite !Z.pow_add_r by lia.
  assert (Hp : 0 < 10 ^ (e0 - e)) by (apply Z.pow_pos_nonneg; lia).
  set (P := 10 ^ (e0 - e)). set (A := m1 * 10 ^ (e1 - e0)). set (B := m2 * 10 ^ (e2 - e0)).
  rewrite !Z.mul_assoc. fold A B.
  rewrite !Z.gtb_ltb.
  destruct (Z.ltb_spec B A), (Z.ltb_spec (B * P) (A * P)); try reflexivity; nia.
Qed.

Lemma num_gt_irrefl : forall x, num_gt x x = false.
Proof.
  intros [m e| | |]; try reflexivity.
  rewrite (num_gt_fin_at m e m e e) by lia. rewrite Z.gtb_ltb. apply Z.ltb_irrefl.
Qed.

Lemma num_gt_trans : forall x y z,
  num_gt x y = true -> num_gt y z = true -> num_gt x z = true.
Proof.
  intros [m1 e1| | |] [m2 e2| | |] [m3 e3| | |] H1 H2; try discriminate; try reflexivity.
  set (e := Z.min e1 (Z.min e2 e3)).
  rewrite (num_gt_fin_at m1 e1 m2 e2 e) in H1 by (unfold e; lia).
  rewrite (num_gt_fin_at m2 e2 m3 e3 e) in H2 by (unfold e; lia).
  rewrite (num_gt_fin_at m1 e1 m3 e3 e) by (unfold e; lia).
  rewrite Z.gtb_ltb in H1, H2 |- *. apply Z.ltb_lt in H1, H2. apply Z.ltb_lt. lia.
Qed.

Lemma py_gt_irrefl : forall a, py_gt a a <> Ok true.
Proof.
  intros a. unfold py_gt. destruct (py_num a) as [x|e]; simpl; [|discriminate].
  rewrite num_gt_irrefl. discriminate.
Qed.

Lemma py_gt_trans : forall a b c,
  py_gt a b = Ok true -> py_gt b c = Ok true -> py_gt a c = Ok true.
Proof.
  intros a b c. unfold py_gt.
  destruct (py_num a) as [x|?], (py_num b) as [y|?], (py_num c) as [z|?]; simpl;
    try discriminate.
  intros H1 H2. injection H1 as H1. injection H2 as H2. rewrite (num_gt_trans x y z H1 H2).
  reflexivity.
Qed.

(** ** The consensus loop *)

Lemma resolve_loop_spec : forall fetch ns ml nc ml' nc',
  resolve_loop fetch ns ml nc = Ok (ml', nc') ->
  ((ml' = ml /\ nc' = nc) \/
   (exists node c, In node ns /\ qualifies fetch node ml ml' c /\ nc' = Some c)) /\
  (forall node len c, In node ns -> qualifies fetch node ml len c -> py_gt len ml' <> Ok true).
Proof.
  induction ns as [|node rest IH]; intros ml nc ml' nc' H; simpl in H.
  - injection H as <- <-. split; [left; auto|]. intros ? ? ? [].
  - destruct (fetch node) as [|status body] eqn:Hf; [discriminate|].
    destruct (status =? 200) eqn:Hs.
    2:{ destruct (IH _ _ _ _ H) as [IH1 IH2]. split.
        - destruct IH1 as [IH1|(n' & c & Hin & Hq & ->)]; [left; exact IH1|].
          right. exists n', c. split; [right; exact Hin | split; [exact Hq | reflexivity]].
        - intros n' len c [<-|Hin] Hq; [|eapply IH2; eauto].
          destruct Hq as (j & Hf' & _). rewrite Hf in Hf'. injection Hf' as -> _.
          discriminate. }
    apply Z.eqb_eq in Hs. subst status.
    destruct body as [j|]; simpl in H; [|discriminate].
    destruct (py_getitem j "length") as [len|] eqn:Hlen; simpl in H; [|discriminate].
    destruct (py_getitem j "chain") as [c|] eqn:Hc; simpl in H; [|discriminate].
    destruct (py_gt len ml) as [gt|] eqn:Hgt; simpl in H; [|discriminate].
    destruct (if gt then valid_chain c else Ok false) as [ok|] eqn:Hok; simpl in H; [|discriminate].
    assert (Hnot : forall len0 c0, qualifies fetch node ml len0 c0 -> len0 = len /\ c0 = c /\ ok = true).
    { intros len0 c0 (j0 & Hf0 & Hl0 & Hc0 & Hg0 & Hv0). rewrite Hf in Hf0.
      injection Hf0 as <-. rewrite Hlen in Hl0. rewrite Hc in Hc0.
      injection Hl0 as <-. injection Hc0 as <-. rewrite Hgt in Hg0. injection Hg0 as ->.
      rewrite Hv0 in Hok. injection Hok as <-. auto. }
    destruct ok.
    + destruct gt; [|discriminate].
      destruct (IH _ _ _ _ H) as [IH1 IH2].
      assert (Hq : qualifies fetch node ml len c) by (exists j; auto).
      assert (Hge : ml' = len \/ py_gt ml' len = Ok true).
      { destruct IH1 as [[-> _]|(n' & c' & _ & (j' & _ & _ & _ & Hg' & _) & _)]; auto. }
      split.
      * destruct IH1 as [[-> ->]|(n' & c' & Hin & Hq' & ->)].
        -- right. exists node, c. split; [left; reflexivity | split; [exact Hq | reflexivity]].
        -- right. exists n', c'. split; [right; exact Hin|]. split; [|reflexivity].
           destruct Hq' as (j' & ? & ? & ? & Hg' & ?). exists j'.
           repeat split; auto. eapply py_gt_trans; eauto.
      * intros n' len0 c0 Hin Hq0 Hbad.
        assert (Hlen0 : py_gt len0 len = Ok true).
        { destruct Hge as [->|Hge]; [exact Hbad | eapply py_gt_trans; eauto]. }
        destruct Hin as [<-|Hin].
        -- destruct (Hnot _ _ Hq0) as (-> & _). exact (py_gt_irrefl _ Hlen0).
        -- apply (IH2 n' len0 c0 Hin); [|exact Hbad].
           destruct Hq0 as (j0 & ? & ? & ? & _ & ?). exists j0. auto.
    + destruct (IH _ _ _ _ H) as [IH1 IH2]. split.
      * destruct IH1 as [IH1|(n' & c' & Hin & Hq & ->)]; [left; exact IH1|].
        right. exists n', c'. split; [right; exact Hin | split; [exact Hq | reflexivity]].
      * intros n' len0 c0 [<-|Hin] Hq0; [|eapply IH2; eauto].
        destruct (Hnot _ _ Hq0) as (_ & _ & Hf0). discriminate.
Qed.

Lemma resolve_conflicts_eq : forall fetch st,
  resolve_conflicts fetch st =
  match py_len (chain st) with
  | Err e => (st, Raises e)
  | Ok n =>
      match resolve_loop fetch (nodes st) (JInt n) None with
      | Err e => (st, Raises e)
      | Ok (_, Some c) => if py_truthy c then (set_chain c st, Returns true) else (st, Returns false)
      | Ok (_, None) => (st, Returns false)
      end
  end.
Proof.
  intros fetch st. unfold resolve_conflicts, bind, get, lift, modify, ret.
  destruct (py_len (chain st)); [|reflexivity].
  destruct (resolve_loop fetch (nodes st) (JInt a) None) as [[ml [c|]]|]; try reflexivity.
  cbn [snd]. destruct (py_truthy c); reflexivity.
Qed.

Lemma resolve_conflicts_cases : forall fetch st st' o,
  resolve_conflicts fetch st = (st', o) ->
  (st' = st /\ o <> Returns true) \/
  (o = Returns true /\ exists n ml c, py_len (chain st) = Ok n /\
     resolve_loop fetch (nodes st) (JInt n) None = Ok (ml, Some c) /\ st' = set_chain c st).
Proof.
  intros fetch st st' o H. rewrite resolve_conflicts_eq in H.
  destruct (py_len (chain st)) as [n|e] eqn:Hn;
    [|injection H as <- <-; left; split; [reflexivity | discriminate]].
  destruct (resolve_loop fetch (nodes st) (JInt n) None) as [[ml [c|]]|e] eqn:Hl;
    [| injection H as <- <-; left; split; [reflexivity | discriminate]
     | injection H as <- <-; left; split; [reflexivity | discriminate]].
  destruct (py_truthy c); injection H as <- <-;
    [right; split; [reflexivity | exists n, ml, c; auto] | left; split; [reflexivity | discriminate]].
Qed.

Lemma resolve_conflicts_chain : forall fetch st st' o,
  resolve_conflicts fetch st = (st', o) ->
  current_transactions st' = current_transactions st /\ nodes st' = nodes st /\
  (chain st' = chain st \/ valid_chain (chain st') = Ok true).
Proof.
  intros fetch st st' o H.
  destruct (resolve_conflicts_cases _ _ _ _ H) as [[-> _]|(_ & n & ml & c & _ & Hl & ->)];
    [auto|].
  repeat split; try reflexivity. right.
  destruct (resolve_loop_spec _ _ _ _ _ _ Hl) as [[[_ Hc]|(node & c' & _ & Hq & Hc)] _];
    [discriminate|].
  injection Hc as <-. destruct Hq as (j & _ & _ & _ & _ & Hv). exact Hv.
Qed.

(** ** Claim C2 *)

(** C2 (as amended).  A call of [resolve_conflicts] leaves the buffer and
    the node set alone.  When it returns True, the new chain is the chain
    of a registered peer that answered 200, whose reported [length] is
    greater than the local [len(self.chain)] and which passes
    [valid_chain]; and no other such peer reported a greater length.
    Otherwise the state is exactly as before. *)
Theorem resolve_conflicts_adopts_longest_valid : forall fetch st st' o,
  resolve_conflicts fetch st = (st', o) ->
  current_transactions st' = current_transactions st /\ nodes st' = nodes st /\
  (o = Returns true ->
     exists n node len, py_len (chain st) = Ok n /\ In node (nodes st) /\
       qualifies fetch node (JInt n) len (chain st') /\
       forall node' len' c', In node' (nodes st) -> qualifies fetch node' (JInt n) len' c' ->
         py_gt len' len <> Ok true) /\
  (o <> Returns true -> st' = st).
Proof.
  intros fetch st st' o H.
  destruct (resolve_conflicts_cases _ _ _ _ H) as [[-> Ho]|(-> & n & ml & c & Hn & Hl & ->)].
  - repeat split; try reflexivity. intros Hx. contradiction.
  - repeat split; try reflexivity.
    + intros _.
      destruct (resolve_loop_spec _ _ _ _ _ _ Hl) as [[[_ Hc]|(node & c' & Hin & Hq & Hc)] Hmax];
        [discriminate|].
      injection Hc as <-. exists n, node, ml.
      split; [exact Hn | split; [exact Hin | split; [exact Hq | exact Hmax]]].
    + intros Hx. exfalso. apply Hx. reflexivity.
Qed.

Lemma resolve_conflicts_adopts_longest_valid_witness :
  resolve_conflicts fetch_a_down node_b = (set_chain chain2 node_b, Returns true) /\
  exists n node len, In node (nodes node_b) /\ qualifies fetch_a_down node (JInt n) len chain2.
Proof.
  assert (Heq : resolve_conflicts fetch_a_down node_b = (set_chain chain2 node_b, Returns true))
    by (vm_compute; reflexivity).
  split; [exact Heq|].
  destruct (resolve_conflicts_adopts_longest_valid fetch_a_down node_b _ _ Heq)
    as (_ & _ & Hyes & _).
  destruct (Hyes eq_refl) as (n & node & len & _ & Hin & Hq & _).
  exists n, node, len. split; [exact Hin | exact Hq].
Defined.

(** C2 counterexample: a peer reporting [length] 5 with a one-block
    chain replaces the one-block chain of a fresh node, so the adopted
    chain is not longer than the local one. *)
Lemma resolve_conflicts_adopts_shorter_chain :
  resolve_conflicts (fun _ => peer_reply 5 (JArr [odd_first_block])) node_a =
    (set_chain (JArr [odd_first_block]) node_a, Returns true) /\
  py_len (chain node_a) = Ok 1 /\ py_len (JArr [odd_first_block]) = Ok 1.
Proof. split; [|split]; vm_compute; reflexivity. Qed.

(** ** Claim C5 *)

(** C5 (as amended).  A peer answering a status other than 200 is
    skipped; a peer whose request raises, or whose 200 reply is not JSON,
    ends the loop with that exception.  A call of [resolve_conflicts]
    either leaves the state exactly as before and does not return True,
    or returns True having replaced only the chain, by one that passes
    [valid_chain]. *)
Theorem resolve_conflicts_skip_abort_atomic :
  (forall fetch node rest ml nc code body, fetch node = Reply code body -> code <> 200 ->
     resolve_loop fetch (node :: rest) ml nc = resolve_loop fetch rest ml nc) /\
  (forall fetch node rest ml nc, fetch node = ConnectionFailed ->
     resolve_loop fetch (node :: rest) ml nc = Err RequestException) /\
  (forall fetch node rest ml nc, fetch node = Reply 200 None ->
     resolve_loop fetch (node :: rest) ml nc = Err JSONDecodeError) /\
  (forall fetch st st' o, resolve_conflicts fetch st = (st', o) ->
     (st' = st /\ o <> Returns true) \/
     (o = Returns true /\ st' = set_chain (chain st') st /\ valid_chain (chain st') = Ok true)).
Proof.
  split; [|split; [|split]].
  - intros fetch node rest ml nc code body Hf Hc. simpl. rewrite Hf.
    apply Z.eqb_neq in Hc. rewrite Hc. reflexivity.
  - intros fetch node rest ml nc Hf. simpl. rewrite Hf. reflexivity.
  - intros fetch node rest ml nc Hf. simpl. rewrite Hf. reflexivity.
  - intros fetch st st' o H.
    destruct (resolve_conflicts_cases _ _ _ _ H) as [Hsame|(Ho & n & ml & c & _ & Hl & ->)];
      [left; exact Hsame|].
    right. split; [exact Ho|]. split; [reflexivity|].
    destruct (resolve_loop_spec _ _ _ _ _ _ Hl) as [[[_ Hc]|(node & c' & _ & Hq & Hc)] _];
      [discriminate|].
    injection Hc as <-. destruct Hq as (j & _ & _ & _ & _ & Hv). exact Hv.
Qed.

Lemma resolve_conflicts_skip_abort_atomic_witness :
  resolve_loop fetch_a_down ["a:5000"%string; "b:5000"%string] (JInt 1) None = Err RequestException /\
  resolve_loop (fun _ => Reply 404 None) ["a:5000"%string] (JInt 1) None = Ok (JInt 1, None).
Proof.
  destruct resolve_conflicts_skip_abort_atomic as (Hskip & Hraise & _ & _). split.
  - apply Hraise. vm_compute. reflexivity.
  - rewrite (Hskip _ _ _ _ _ 404 None eq_refl) by discriminate. reflexivity.
Defined.

(** C5 counterexample: with peer [a] unreachable before peer [b], the
    call raises and [b]'s longer valid chain is not adopted, though [b]
    alone would have been adopted. *)
Lemma resolve_conflicts_unreachable_peer_fatal :
  resolve_conflicts fetch_a_down node_ab = (node_ab, Raises RequestException) /\
  resolve_conflicts fetch_a_down node_b = (set_chain chain2 node_b, Returns true).
Proof. split; vm_compute; reflexivity. Qed.

(** ** Effects of the mutating methods on the chain *)

Lemma py_index_last : forall l, l <> [] -> py_index (JArr l) (-1) = Ok (last l JNull).
Proof.
  intros l Hl. destruct (exists_last Hl) as (pre & b & ->).
  rewrite last_last. unfold py_index. rewrite length_app. cbn [List.length].
  replace (-1 <? 0) with true by reflexivity.
  replace (-1 + Z.of_nat (List.length pre + 1)) with (Z.of_nat (List.length pre)) by lia.
  replace (0 <=? Z.of_nat (List.length pre)) with true by (symmetry; apply Z.leb_le; lia).
  replace (Z.of_nat (List.length pre) <? Z.of_nat (List.length pre + 1)) with true
    by (symmetry; apply Z.ltb_lt; lia).
  rewrite Nat2Z.id, nth_error_app2, Nat.sub_diag by lia. reflexivity.
Qed.

Lemma new_transaction_state : forall s r a st,
  fst (new_transaction s r a st) =
  set_current_transactions
    (current_transactions st ++
       [JObj [("sender"%string, s); ("recipient"%string, r); ("amount"%string, a)]]) st.
Proof.
  intros s r a st. unfold new_transaction, last_block, bind, modify, get, lift. cbn.
  destruct (py_index (chain st) (-1)) as [lb|]; [|reflexivity].
  destruct (py_getitem lb "index") as [v|]; [|reflexivity].
  destruct (py_add_one v); reflexivity.
Qed.

Lemma register_node_state : forall addr st,
  chain (fst (register_node addr st)) = chain st /\
  current_transactions (fst (register_node addr st)) = current_transactions st.
Proof.
  intros addr st. unfold register_node, bind, modify, lift.
  destruct (urlparse_netloc addr) as [n|]; [|auto].
  cbn. destruct (existsb (String.eqb n) (nodes st)); auto.
Qed.

Lemma new_block_spec : forall ts p ph st l,
  chain st = JArr l -> l <> [] ->
  let blk := JObj [("index"%string, JInt (Z.of_nat (List.length l) + 1));
                   ("timestamp"%string, JFloat ts);
                   ("transactions"%string, JArr (current_transactions st));
                   ("proof"%string, p);
                   ("previous_hash"%string,
                      if py_truthy ph then ph else JStr (hash (last l JNull)))] in
  new_block ts p ph st = (mkBlockchain (JArr (l ++ [blk])) [] (nodes st), Returns blk).
Proof.
  intros ts p ph st l Hc Hl blk. unfold new_block, bind, get, lift, modify, ret.
  rewrite Hc. cbn [py_len].
  destruct (py_truthy ph) eqn:Ht.
  - simpl. rewrite Hc. reflexivity.
  - rewrite (py_index_last l Hl). simpl. rewrite Hc. reflexivity.
Qed.

Lemma mine_chain : forall fuel nid ts st,
  chain (fst (mine fuel nid ts st)) = chain st \/
  exists l blk, chain st = JArr l /\ l <> [] /\
    chain (fst (mine fuel nid ts st)) = JArr (l ++ [blk]) /\ link_ok (last l JNull) blk = true.
Proof.
  intros fuel nid ts st.
  unfold mine, last_block, bind, get, lift, search, ret.
  destruct (py_index (chain st) (-1)) as [lb|] eqn:Hlb; [|left; reflexivity].
  destruct (py_getitem lb "proof") as [lp|] eqn:Hlp; [|left; reflexivity].
  destruct (proof_of_work fuel lp) as [p|] eqn:Hpow; [|left; reflexivity].
  pose proof (new_transaction_state (JStr "0") (JStr nid) (JInt 1) st) as Hst.
  destruct (new_transaction (JStr "0") (JStr nid) (JInt 1) st) as [st1 o1] eqn:Hnt.
  simpl in Hst. subst st1.
  assert (Hlb' : exists l, chain st = JArr l /\ l <> [] /\ lb = last l JNull).
  { destruct (chain st) as [| | | |s|l|] eqn:Hc; try discriminate.
    - unfold py_index in Hlb.
      destruct (_ && _); [destruct (String.get _ s)|]; try discriminate.
      injection Hlb as <-. discriminate.
    - assert (Hl : l <> []) by (intros ->; discriminate).
      exists l. split; [reflexivity | split; [exact Hl|]].
      rewrite (py_index_last l Hl) in Hlb. injection Hlb as <-. reflexivity. }
  destruct Hlb' as (l & Hc & Hl & ->).
  destruct o1 as [i| |]; [| left; reflexivity | left; reflexivity].
  erewrite (new_block_spec ts (JInt p) JNull _ l); [cbn zeta | exact Hc | exact Hl].
  right. eexists l, _. split; [exact Hc | split; [exact Hl | split]].
  - destruct (py_getitem _ "index"); [|reflexivity].
    destruct (py_getitem _ "transactions"); [|reflexivity].
    destruct (py_getitem _ "proof"); [|reflexivity].
    destruct (py_getitem _ "previous_hash"); reflexivity.
  - unfold link_ok. cbn -[hash valid_proof]. rewrite String.eqb_refl, Hlp. cbn -[valid_proof].
    exact (proj1 (proj2 (pow_search_sound lp fuel 0 p Hpow))).
Qed.

Lemma api_step_invariant : forall st st',
  api_step st st' -> chain_invariant (chain st) -> chain_invariant (chain st').
Proof.
  intros st st' Hs H. destruct Hs as [s r a st|addr st|fetch st|fuel nid ts st _].
  - rewrite new_transaction_state. exact H.
  - rewrite (proj1 (register_node_state addr st)). exact H.
  - destruct (resolve_conflicts fetch st) as [st' o] eqn:E. simpl.
    destruct (resolve_conflicts_chain _ _ _ _ E) as (_ & _ & [->|Hv]);
      [exact H | exact (valid_chain_invariant _ Hv)].
  - destruct (mine_chain fuel nid ts st) as [->|(l & blk & Hc & Hl & Hc' & Hlink)]; [exact H|].
    rewrite Hc'. destruct H as (l0 & Hl0 & Hok). rewrite Hc in Hl0. injection Hl0 as <-.
    exists (l ++ [blk]). split; [reflexivity|].
    destruct l as [|b t]; [contradiction|].
    unfold chain_links_ok in *. cbn [app]. rewrite links_ok_app, Hok. cbn [andb links_ok].
    rewrite last_cons_cons in Hlink. rewrite Hlink. reflexivity.
Qed.

(** ** Claim C3 *)

(** C3 (as amended).  In every state reachable from [Blockchain()] by the
    calls the HTTP endpoints make ([new_transaction], [register_node],
    [resolve_conflicts], and [mine], which calls [new_block] with the
    proof it found and the default [previous_hash]), every block after
    the first has [previous_hash] equal to the hash of the block before
    it, and [valid_proof] holds between their proofs. *)
Theorem api_reachable_chain_invariant : forall st,
  reachable api_step st -> chain_invariant (chain st).
Proof.
  intros st H. induction H as [ts|st st' _ IH Hs].
  - eexists. split; reflexivity.
  - exact (api_step_invariant st st' Hs IH).
Qed.

Lemma api_reachable_chain_invariant_witness :
  reachable api_step mined_pow /\ py_len (chain mined_pow) = Ok 3 /\
  chain_invariant (chain mined_pow).
Proof.
  assert (R : reachable api_step mined_pow).
  { unfold mined_pow. eapply reach_step; [|apply as_mine; vm_compute; discriminate].
    unfold pending_pow. eapply reach_step; [|apply as_new_transaction].
    unfold adopted_pow. eapply reach_step; [|apply as_resolve].
    unfold node_a. eapply reach_step; [apply reach_init | apply as_register_node]. }
  split; [exact R | split; [vm_compute; reflexivity | exact (api_reachable_chain_invariant mined_pow R)]].
Defined.

(** C3 counterexample: [new_block] called directly with proof 0 right
    after initialization appends a block whose proof does not pass
    [valid_proof] against the genesis proof 100. *)
Lemma new_block_breaks_invariant :
  reachable method_step (fst (new_block "1700000001.0" (JInt 0) JNull (blockchain_init "1700000000.5"))) /\
  ~ chain_invariant (chain (fst (new_block "1700000001.0" (JInt 0) JNull (blockchain_init "1700000000.5")))).
Proof.
  split.
  - eapply reach_step; [apply reach_init | apply ms_new_block].
  - intros (l & Hl & Hok). vm_compute in Hl. injection Hl as <-.
    vm_compute in Hok. discriminate.
Qed.

(** ** Claim C7 *)

(** C7 (code bug).  [new_transaction] appends the transaction to the
    buffer and leaves the chain alone, but returns
    [self.last_block['index'] + 1], not [len(self.chain) + 1].  After the
    node adopts a valid peer chain whose last block has index 7, the
    chain has 2 blocks and the call returns 8, while the next
    [new_block] seals the transaction into a block with index 3. *)
Theorem new_transaction_index_from_last_block :
  (forall s r a st, fst (new_transaction s r a st) =
     set_current_transactions
       (current_transactions st ++
          [JObj [("sender"%string, s); ("recipient"%string, r); ("amount"%string, a)]]) st) /\
  reachable api_step adopted_odd /\ py_len (chain adopted_odd) = Ok 2 /\
  snd (new_transaction (JStr "A") (JStr "B") (JInt 10) adopted_odd) = Returns (IndexInt 8) /\
  match snd (new_block "1700000200.0" (JInt 484) JNull
               (fst (new_transaction (JStr "A") (JStr "B") (JInt 10) adopted_odd))) with
  | Returns b =>
      py_getitem b "index" = Ok (JInt 3) /\
      py_getitem b "transactions" =
        Ok (JArr [JObj [("sender"%string, JStr "A"); ("recipient"%string, JStr "B");
                        ("amount"%string, JInt 10)]])
  | _ => False
  end.
Proof.
  split; [exact new_transaction_state|].
  split.
  - unfold adopted_odd. eapply reach_step; [|apply as_resolve].
    unfold node_a. eapply reach_step; [apply reach_init | apply as_register_node].
  - split; [|split]; vm_compute; [reflexivity | reflexivity | split; reflexivity].
Qed.

(** ** Claim C8 *)

(** C8 (as amended).  On a state whose chain is a non-empty list [l],
    [new_block(proof, previous_hash)] returns and appends the block with
    index [len(l) + 1], the pending buffer as its transactions, the given
    proof, and as [previous_hash] the supplied value when it is truthy
    and otherwise the hash of the old last block; the buffer is then
    empty.  [new_transaction] and [register_node] leave the chain alone,
    [mine] changes it only by appending one block, and
    [resolve_conflicts] can replace it by another chain that passes
    [valid_chain]. *)
Theorem new_block_appends_buffer :
  (forall ts p ph st l, chain st = JArr l -> l <> [] ->
     let blk := JObj [("index"%string, JInt (Z.of_nat (List.length l) + 1));
                      ("timestamp"%string, JFloat ts);
                      ("transactions"%string, JArr (current_transactions st));
                      ("proof"%string, p);
                      ("previous_hash"%string,
                         if py_truthy ph then ph else JStr (hash (last l JNull)))] in
     new_block ts p ph st = (mkBlockchain (JArr (l ++ [blk])) [] (nodes st), Returns blk)) /\
  (forall s r a st, chain (fst (new_transaction s r a st)) = chain st) /\
  (forall addr st, chain (fst (register_node addr st)) = chain st) /\
  (forall fuel nid ts st, chain (fst (mine fuel nid ts st)) = chain st \/
     exists l blk, chain st = JArr l /\ chain (fst (mine fuel nid ts st)) = JArr (l ++ [blk])) /\
  (forall fetch st st' o, resolve_conflicts fetch st = (st', o) ->
     chain st' = chain st \/ valid_chain (chain st') = Ok true).
Proof.
  split; [exact new_block_spec|].
  split; [intros s r a st; rewrite new_transaction_state; reflexivity|].
  split; [intros addr st; exact (proj1 (register_node_state addr st))|].
  split.
  - intros fuel nid ts st.
    destruct (mine_chain fuel nid ts st) as [H|(l & blk & Hc & _ & Hc' & _)];
      [left; exact H | right; exists l, blk; split; [exact Hc | exact Hc']].
  - intros fetch st st' o H. exact (proj2 (proj2 (resolve_conflicts_chain _ _ _ _ H))).
Qed.

Lemma new_block_appends_buffer_witness :
  new_block "1700000005.25" (JInt 35293) JNull (blockchain_init "1700000000.5") =
    (mkBlockchain chain2 [] [], Returns (block2_at "1700000005.25" (genesis_at "1700000000.5") [])).
Proof.
  rewrite (proj1 new_block_appends_buffer "1700000005.25"%string (JInt 35293) JNull
             (blockchain_init "1700000000.5") [genesis_at "1700000000.5"]);
    [reflexivity | reflexivity | discriminate].
Defined.

(** C8 counterexample: a supplied [previous_hash] of [''] is falsy, so
    the block links to the hash of the last block instead; and
    [resolve_conflicts] grows the chain of [node_b] from one block to
    two. *)
Lemma new_block_falsy_hash_and_resolve_growth :
  match snd (new_block "1700000001.0" (JInt 35293) (JStr "")
               (blockchain_init "1700000000.5")) with
  | Returns b => py_getitem b "previous_hash" = Ok (JStr (hash (genesis_at "1700000000.5")))
  | _ => False
  end /\
  hash (genesis_at "1700000000.5") <> EmptyString /\
  resolve_conflicts fetch_a_down node_b = (set_chain chain2 node_b, Returns true) /\
  py_len (chain node_b) = Ok 1 /\ py_len chain2 = Ok 2.
Proof.
  split; [vm_compute; reflexivity|].
  split; [vm_compute; discriminate|].
  split; [|split]; vm_compute; reflexivity.
Qed.

(* ------------------------------------------------------------------ *)
(** * Further properties of the code *)

(** ** register_node *)




Lemma split_at_colon_suffix : forall l a b,
  split_at_colon l = Some (a, b) -> forall c, In c b -> In c l.
Proof.
  induction l as [|d l IH]; intros a b H c Hc; simpl in H; [discriminate|].
  destruct (Nat.eqb (code d) 58).
  - injection H as _ <-. right. exact Hc.
  - destruct (split_at_colon l) as [[a' b']|] eqn:E; [|discriminate].
    injection H as _ <-. right. exact (IH _ _ eq_refl c Hc).
Qed.

Lemma lstrip_incl : forall l c,
  In c ((fix lstrip (l : list ascii) := match l with
          | c :: rest => if Nat.leb (code c) 32 then lstrip rest else l
          | [] => [] end) l) -> In c l.
Proof.
  induction l as [|d l IH]; intros c H; [exact H|].
  destruct (Nat.leb (code d) 32); [right; exact (IH c H) | exact H].
Qed.

Lemma netloc_no_slash : forall rest : list ascii,
  (forall c, In c rest -> code c <> 47%nat) ->
  match rest with "/"%char :: "/"%char :: t => take_netloc t | _ => [] end = [].
Proof.
  intros [|c rest] H; [reflexivity|].
  destruct c as [[] [] [] [] [] [] [] []]; try reflexivity.
  exfalso. exact (H _ (or_introl eq_refl) eq_refl).
Qed.

Lemma urlparse_netloc_no_slash : forall addr,
  (forall c, In c (list_ascii_of_string addr) -> code c <> 47%nat) ->
  urlparse_netloc addr = Ok EmptyString.
Proof.
  intros addr H. unfold urlparse_netloc. cbv zeta.
  set (l0 := list_ascii_of_string addr) in *.
  lazymatch goal with
  | |- context [split_at_colon ?l2] =>
      assert (H2 : forall c, In c l2 -> In c l0);
      [ intros c Hc; apply lstrip_incl in Hc; apply filter_In in Hc; exact (proj1 Hc)
      | destruct (split_at_colon l2) as [[[|c0 sch] after]|] eqn:E ]
  end.
  - rewrite netloc_no_slash; [reflexivity|]. intros c Hc. exact (H c (H2 c Hc)).
  - destruct (is_alpha (code c0) && _);
      (rewrite netloc_no_slash; [reflexivity|]); intros c Hc; apply H, H2;
      [exact (split_at_colon_suffix _ _ _ E c Hc) | exact Hc].
  - rewrite netloc_no_slash; [reflexivity|]. intros c Hc. exact (H c (H2 c Hc)).
Qed.



Lemma register_node_eq : forall addr st,
  register_node addr st =
  match urlparse_netloc addr with
  | Err e => (st, Raises e)
  | Ok n => (if existsb (String.eqb n) (nodes st) then st else set_nodes (nodes st ++ [n]) st,
             Returns tt)
  end.
Proof. intros addr st. unfold register_node, bind, lift, modify. destruct (urlparse_netloc addr); reflexivity. Qed.



(** register_node on an address with no [/] at all (such as
    [localhost:5000] or [192.168.0.5:5000]) parses an empty netloc and
    adds the empty string to the node set. *)
Theorem register_node_without_slash : forall addr st,
  (forall c, In c (list_ascii_of_string addr) -> code c <> 47%nat) ->
  register_node addr st =
    (if existsb (String.eqb EmptyString) (nodes st) then st
     else set_nodes (nodes st ++ [EmptyString]) st, Returns tt).
Proof.
  intros addr st H. rewrite register_node_eq, (urlparse_netloc_no_slash addr H). reflexivity.
Qed.

Lemma register_node_without_slash_witness :
  register_node "localhost:5000" (blockchain_init "1700000000.5") =
    (set_nodes [EmptyString] (blockchain_init "1700000000.5"), Returns tt).
Proof.
  rewrite (register_node_without_slash "localhost:5000" (blockchain_init "1700000000.5")).
  - reflexivity.
  - intros c Hc. simpl in Hc.
    repeat (destruct Hc as [<-|Hc]; [discriminate|]). contradiction.
Defined.

(** ** new_transaction, new_block and mine on unusual chains *)

(** new_transaction appends the transaction before it reads
    [self.last_block['index']]: when the chain has no last block or the
    last block has no [index], the call raises and the transaction stays
    in the pending buffer. *)
Theorem new_transaction_keeps_tx_on_error : forall s r a st e,
  (py_index (chain st) (-1) = Err e \/
   exists lb, py_index (chain st) (-1) = Ok lb /\ py_getitem lb "index" = Err e) ->
  new_transaction s r a st =
    (set_current_transactions
       (current_transactions st ++
          [JObj [("sender"%string, s); ("recipient"%string, r); ("amount"%string, a)]]) st,
     Raises e).
Proof.
  intros s r a st e H. unfold new_transaction, last_block, bind, modify, get, lift. cbn.
  destruct H as [H|(lb & H1 & H2)]; [rewrite H | rewrite H1, H2]; reflexivity.
Qed.

Lemma new_transaction_keeps_tx_on_error_witness :
  snd (new_transaction (JStr "A") (JStr "B") (JInt 10) adopted_noindex) = Raises KeyError /\
  current_transactions (fst (new_transaction (JStr "A") (JStr "B") (JInt 10) adopted_noindex)) =
    [JObj [("sender"%string, JStr "A"); ("recipient"%string, JStr "B"); ("amount"%string, JInt 10)]].
Proof.
  rewrite (new_transaction_keeps_tx_on_error _ _ _ adopted_noindex KeyError).
  - split; [reflexivity | vm_compute; reflexivity].
  - right. exists (JObj [("proof"%string, JInt 1)]). split; vm_compute; reflexivity.
Defined.

Lemma string_get_exists : forall n s, (n < String.length s)%nat -> exists c, String.get n s = Some c.
Proof.
  induction n as [|n IH]; intros [|c s] H; simpl in H; try lia.
  - exists c. reflexivity.
  - simpl. apply IH. lia.
Qed.

Lemma py_index_str_last : forall s, s <> EmptyString ->
  exists c, py_index (JStr s) (-1) = Ok (JStr (String c EmptyString)).
Proof.
  intros s Hs. assert (Hl : (0 < String.length s)%nat) by (destruct s; [contradiction | simpl; lia]).
  destruct (string_get_exists (String.length s - 1) s) as (c & Hc); [lia|].
  exists c. unfold py_index.
  replace (-1 <? 0) with true by reflexivity.
  replace ((0 <=? -1 + Z.of_nat (String.length s)) && (-1 + Z.of_nat (String.length s) <? Z.of_nat (String.length s)))
    with true by zbool.
  replace (Z.to_nat (-1 + Z.of_nat (String.length s))) with (String.length s - 1)%nat by lia.
  rewrite Hc. reflexivity.
Qed.

(** new_block on a chain that is a non-empty str (which
    resolve_conflicts can adopt, as valid_chain accepts any
    one-character str): the pending buffer is emptied, then
    [self.chain.append] raises AttributeError, so the pending
    transactions are lost and no block is added. *)
Theorem new_block_on_str_chain : forall ts p ph st s,
  chain st = JStr s -> s <> EmptyString ->
  new_block ts p ph st = (set_current_transactions [] st, Raises AttributeError).
Proof.
  intros ts p ph st s Hc Hs. unfold new_block, bind, get, lift, modify, ret.
  rewrite Hc. cbn [py_len].
  destruct (py_truthy ph).
  - simpl. rewrite Hc. reflexivity.
  - destruct (py_index_str_last s Hs) as (c & Hi). rewrite Hi. simpl. rewrite Hc. reflexivity.
Qed.

Lemma new_block_on_str_chain_witness :
  let st := fst (new_transaction (JStr "A") (JStr "B") (JInt 10) adopted_str) in
  current_transactions st <> [] /\
  new_block "1700000300.0" (JInt 1) JNull st = (set_current_transactions [] st, Raises AttributeError).
Proof.
  intros st. split; [vm_compute; discriminate|].
  apply (new_block_on_str_chain _ _ _ st "x"); [vm_compute; reflexivity | discriminate].
Defined.

Lemma mine_eq : forall fuel nid ts st,
  mine fuel nid ts st =
  match py_index (chain st) (-1) with
  | Err e => (st, Raises e)
  | Ok lb =>
    match py_getitem lb "proof" with
    | Err e => (st, Raises e)
    | Ok lp =>
      match proof_of_work fuel lp with
      | None => (st, Running)
      | Some p =>
        (bind (new_transaction (JStr "0") (JStr nid) (JInt 1)) (fun _ =>
         bind (new_block ts (JInt p) JNull) (fun block =>
         bind (lift (py_getitem block "index")) (fun index =>
         bind (lift (py_getitem block "transactions")) (fun txs =>
         bind (lift (py_getitem block "proof")) (fun prf =>
         bind (lift (py_getitem block "previous_hash")) (fun ph =>
         ret (JObj [("message"%string, JStr "New Block Forged"); ("index"%string, index);
                    ("transactions"%string, txs); ("proof"%string, prf);
                    ("previous_hash"%string, ph)])))))))) st
      end
    end
  end.
Proof.
  intros fuel nid ts st. unfold mine, last_block, bind, get, lift, search, ret.
  destruct (py_index (chain st) (-1)) as [lb|e]; [|reflexivity].
  destruct (py_getitem lb "proof") as [lp|e]; [|reflexivity].
  destruct (proof_of_work fuel lp); reflexivity.
Qed.

(** The [/mine] handler on a list chain: it reads the last block's
    proof, finds the next proof [p], appends the reward transaction
    (sender "0", this node, amount 1) after the pending transactions and
    seals them all into a new last block with index [len(chain) + 1],
    proof [p] and the hash of the old last block; the buffer is then
    empty and the reply repeats the block's fields.  This needs the old
    last block's [index] to support [+ 1], as [new_transaction] reads it. *)
Theorem mine_seals_buffer_then_reward : forall fuel nid ts st l lp p v i,
  chain st = JArr l -> l <> [] ->
  py_getitem (last l JNull) "proof" = Ok lp -> proof_of_work fuel lp = Some p ->
  py_getitem (last l JNull) "index" = Ok v -> py_add_one v = Ok i ->
  let txs := current_transactions st ++
               [JObj [("sender"%string, JStr "0"); ("recipient"%string, JStr nid);
                      ("amount"%string, JInt 1)]] in
  let blk := JObj [("index"%string, JInt (Z.of_nat (List.length l) + 1));
                   ("timestamp"%string, JFloat ts);
                   ("transactions"%string, JArr txs); ("proof"%string, JInt p);
                   ("previous_hash"%string, JStr (hash (last l JNull)))] in
  mine fuel nid ts st =
    (mkBlockchain (JArr (l ++ [blk])) [] (nodes st),
     Returns (JObj [("message"%string, JStr "New Block Forged");
                    ("index"%string, JInt (Z.of_nat (List.length l) + 1));
                    ("transactions"%string, JArr txs); ("proof"%string, JInt p);
                    ("previous_hash"%string, JStr (hash (last l JNull)))])).
Proof.
  intros fuel nid ts st l lp p v i Hc Hl Hlp Hpow Hv Hi txs blk.
  rewrite mine_eq, Hc, (py_index_last l Hl), Hlp, Hpow.
  unfold bind at 1.
  pose proof (new_transaction_state (JStr "0") (JStr nid) (JInt 1) st) as Hst.
  assert (Ho : snd (new_transaction (JStr "0") (JStr nid) (JInt 1) st) = Returns i).
  { unfold new_transaction, last_block, bind, modify, get, lift. cbn.
    rewrite Hc, (py_index_last l Hl), Hv, Hi. reflexivity. }
  destruct (new_transaction (JStr "0") (JStr nid) (JInt 1) st) as [st1 o1].
  simpl in Hst, Ho. subst st1 o1.
  unfold bind at 1.
  erewrite (new_block_spec ts (JInt p) JNull _ l); [reflexivity | exact Hc | exact Hl].
Qed.

Lemma mine_seals_buffer_then_reward_witness :
  current_transactions (fst (mine 3 "node" "1700000300.0" small_pow_node)) = [] /\
  py_len (chain (fst (mine 3 "node" "1700000300.0" small_pow_node))) = Ok 2.
Proof.
  rewrite (mine_seals_buffer_then_reward 3 "node" "1700000300.0" small_pow_node
             [JObj [("index"%string, JInt 1); ("proof"%string, JInt 30916)]]
             (JInt 30916) 2 (JInt 1) (IndexInt 2));
    [split; reflexivity | reflexivity | discriminate | reflexivity | vm_compute; reflexivity
    | reflexivity | reflexivity].
Defined.

(** The [/mine] handler when the chain has no last block, or the last
    block has no [proof]: it raises before any change. *)
Theorem mine_no_proof_unchanged : forall fuel nid ts st e,
  (py_index (chain st) (-1) = Err e \/
   exists lb, py_index (chain st) (-1) = Ok lb /\ py_getitem lb "proof" = Err e) ->
  mine fuel nid ts st = (st, Raises e).
Proof.
  intros fuel nid ts st e H. rewrite mine_eq.
  destruct H as [H|(lb & H1 & H2)]; [rewrite H | rewrite H1, H2]; reflexivity.
Qed.

Lemma mine_no_proof_unchanged_witness :
  mine 10 "node" "1700000300.0" (set_chain (JArr []) small_pow_node) =
    (set_chain (JArr []) small_pow_node, Raises IndexError).
Proof. apply mine_no_proof_unchanged. left. reflexivity. Defined.

(** The [/mine] handler when the last block has a [proof] but no
    [index]: it finds the proof, appends the reward transaction, then
    raises in [new_transaction]; no block is added but the reward stays
    pending. *)
Theorem mine_reward_left_pending : forall fuel nid ts st lb lp p e,
  py_index (chain st) (-1) = Ok lb -> py_getitem lb "proof" = Ok lp ->
  proof_of_work fuel lp = Some p -> py_getitem lb "index" = Err e ->
  mine fuel nid ts st =
    (set_current_transactions
       (current_transactions st ++
          [JObj [("sender"%string, JStr "0"); ("recipient"%string, JStr nid);
                 ("amount"%string, JInt 1)]]) st, Raises e).
Proof.
  intros fuel nid ts st lb lp p e H1 H2 H3 H4. rewrite mine_eq, H1, H2, H3.
  unfold bind at 1.
  rewrite (new_transaction_keeps_tx_on_error _ _ _ st e (or_intror (ex_intro _ lb (conj H1 H4)))).
  reflexivity.
Qed.

Lemma mine_reward_left_pending_witness :
  let st := set_chain (JArr [JObj [("proof"%string, JInt 30916)]]) small_pow_node in
  snd (mine 3 "node" "1700000300.0" st) = Raises KeyError /\
  List.length (current_transactions (fst (mine 3 "node" "1700000300.0" st))) = 2%nat.
Proof.
  intros st.
  rewrite (mine_reward_left_pending 3 "node" "1700000300.0" st
             (JObj [("proof"%string, JInt 30916)]) (JInt 30916) 2 KeyError);
    [split; reflexivity | reflexivity | reflexivity | vm_compute; reflexivity | reflexivity].
Defined.

(** ** valid_chain and resolve_conflicts on malformed data *)

Lemma valid_chain_loop_raises : forall mid pre b0 b t fuel e,
  (List.length mid + List.length (b :: t) < fuel)%nat ->
  links_ok b0 mid = true ->
  (py_getitem b "previous_hash" = Err e \/
   exists ph, py_getitem b "previous_hash" = Ok ph /\ py_eq_str ph (hash (last mid b0)) = true /\
     (py_getitem (last mid b0) "proof" = Err e \/
      exists lp, py_getitem (last mid b0) "proof" = Ok lp /\ py_getitem b "proof" = Err e)) ->
  valid_chain_loop fuel (JArr (pre ++ b0 :: mid ++ b :: t)) b0 (Z.of_nat (S (List.length pre))) = Err e.
Proof.
  induction mid as [|m mid IH]; intros pre b0 b t fuel e Hfuel Hl Hbad;
    (destruct fuel as [|fuel]; [simpl in Hfuel; lia|]); cbn [valid_chain_loop py_len bind_result].
  - cbn [app]. rewrite length_app. cbn [List.length].
    replace (Z.of_nat (S (List.length pre)) <? Z.of_nat (List.length pre + S (S (List.length t))))
      with true by zbool.
    replace (pre ++ b0 :: b :: t) with ((pre ++ [b0]) ++ b :: t)
      by (rewrite <- app_assoc; reflexivity).
    replace (Z.of_nat (S (List.length pre))) with (Z.of_nat (List.length (pre ++ [b0])))
      by (rewrite length_app; simpl; lia).
    rewrite py_index_at_length. cbn [bind_result]. cbn [last] in Hbad.
    destruct Hbad as [H|(ph & H1 & H2 & [H3|(lp & H3 & H4)])].
    + rewrite H. reflexivity.
    + rewrite H1. cbn [bind_result]. rewrite H2. cbn [negb]. rewrite H3. reflexivity.
    + rewrite H1. cbn [bind_result]. rewrite H2. cbn [negb]. rewrite H3. cbn [bind_result].
      rewrite H4. reflexivity.
  - cbn [app]. rewrite length_app. cbn [List.length].
    replace (Z.of_nat (S (List.length pre)) <? Z.of_nat (List.length pre + S (S (List.length (mid ++ b :: t)))))
      with true by zbool.
    replace (pre ++ b0 :: m :: mid ++ b :: t) with ((pre ++ [b0]) ++ m :: mid ++ b :: t)
      by (rewrite <- app_assoc; reflexivity).
    replace (Z.of_nat (S (List.length pre))) with (Z.of_nat (List.length (pre ++ [b0])))
      by (rewrite length_app; simpl; lia).
    rewrite py_index_at_length. cbn [bind_result].
    cbn [links_ok] in Hl. apply andb_true_iff in Hl as [Hlk Hl]. unfold link_ok in Hlk.
    destruct (py_getitem m "previous_hash") as [ph|?]; [|discriminate]. cbn [bind_result].
    destruct (py_eq_str ph (hash b0)); [|discriminate]. cbn [negb].
    destruct (py_getitem b0 "proof") as [lp|?]; [|discriminate]. cbn [bind_result].
    destruct (py_getitem m "proof") as [bp|?]; [|discriminate]. cbn [bind_result].
    destruct (valid_proof lp bp); [|discriminate]. cbn [negb].
    replace (Z.of_nat (List.length (pre ++ [b0])) + 1)
      with (Z.of_nat (S (List.length (pre ++ [b0])))) by lia.
    rewrite last_cons_cons in Hbad.
    apply IH; [simpl in Hfuel |- *; lia | exact Hl | exact Hbad].
Qed.

(** valid_chain on a list whose links hold up to some block [b] raises,
    instead of returning False, when [b] has no [previous_hash], or when
    [b]'s [previous_hash] matches but the block before it or [b] itself
    has no [proof]. *)
Theorem valid_chain_raises_on_missing_field : forall b0 mid b t e,
  links_ok b0 mid = true ->
  (py_getitem b "previous_hash" = Err e \/
   exists ph, py_getitem b "previous_hash" = Ok ph /\ py_eq_str ph (hash (last mid b0)) = true /\
     (py_getitem (last mid b0) "proof" = Err e \/
      exists lp, py_getitem (last mid b0) "proof" = Ok lp /\ py_getitem b "proof" = Err e)) ->
  valid_chain (JArr (b0 :: mid ++ b :: t)) = Err e.
Proof.
  intros b0 mid b t e Hl Hbad. unfold valid_chain. simpl.
  rewrite SuccNat2Pos.id_succ.
  apply (valid_chain_loop_raises mid [] b0 b t); [rewrite length_app; simpl; lia | exact Hl | exact Hbad].
Qed.

Lemma valid_chain_raises_on_missing_field_witness :
  valid_chain (JArr [genesis_at "1700000000.5"; JObj []]) = Err KeyError.
Proof.
  apply (valid_chain_raises_on_missing_field (genesis_at "1700000000.5") [] (JObj []) []).
  - reflexivity.
  - left. reflexivity.
Defined.

(** resolve_conflicts raises, changing nothing, when the first peer's
    200 reply has no [length] or no [chain], reports a length that does
    not compare with an int, or reports a greater length with a chain on
    which valid_chain raises. *)
Theorem resolve_conflicts_raises_on_bad_reply : forall fetch st n node rest j e,
  nodes st = node :: rest -> py_len (chain st) = Ok n -> fetch node = Reply 200 (Some j) ->
  (py_getitem j "length" = Err e \/
   (exists len, py_getitem j "length" = Ok len /\ py_getitem j "chain" = Err e) \/
   (exists len c, py_getitem j "length" = Ok len /\ py_getitem j "chain" = Ok c /\
      (py_gt len (JInt n) = Err e \/ (py_gt len (JInt n) = Ok true /\ valid_chain c = Err e)))) ->
  resolve_conflicts fetch st = (st, Raises e).
Proof.
  intros fetch st n node rest j e Hn Hl Hf H.
  rewrite resolve_conflicts_eq, Hl, Hn. cbn [resolve_loop]. rewrite Hf.
  cbn [Z.eqb Pos.eqb response_json bind_result].
  destruct H as [H|[(len & H1 & H2)|(len & c & H1 & H2 & [H3|(H3 & H4)])]].
  - rewrite H. reflexivity.
  - rewrite H1. cbn [bind_result]. rewrite H2. reflexivity.
  - rewrite H1. cbn [bind_result]. rewrite H2. cbn [bind_result]. rewrite H3. reflexivity.
  - rewrite H1. cbn [bind_result]. rewrite H2. cbn [bind_result]. rewrite H3. cbn [bind_result].
    rewrite H4. reflexivity.
Qed.

Lemma resolve_conflicts_raises_on_bad_reply_witness :
  resolve_conflicts (fun _ => peer_reply 5 (JArr [genesis_at "1700000000.5"; JObj []])) node_a =
    (node_a, Raises KeyError).
Proof.
  apply (resolve_conflicts_raises_on_bad_reply _ node_a 1 "a:5000" []
           (JObj [("length"%string, JInt 5);
                  ("chain"%string, JArr [genesis_at "1700000000.5"; JObj []])]));
    [vm_compute; reflexivity | vm_compute; reflexivity | reflexivity |].
  right. right. exists (JInt 5), (JArr [genesis_at "1700000000.5"; JObj []]).
  split; [reflexivity | split; [reflexivity | right; split; [reflexivity | vm_compute; reflexivity]]].
Defined.

(** ** The node's own chain *)

Lemma api_reachable_valid : forall st, reachable api_step st -> valid_chain (chain st) = Ok true.
Proof.
  intros st H. induction H as [ts|st st' _ IH Hs].
  - exact (proj2 (valid_chain_cons _ []) eq_refl).
  - destruct Hs as [s r a st|addr st|fetch st|fuel nid ts st _].
    + rewrite new_transaction_state. exact IH.
    + rewrite (proj1 (register_node_state addr st)). exact IH.
    + destruct (resolve_conflicts fetch st) as [st' o] eqn:E. simpl.
      destruct (resolve_conflicts_chain _ _ _ _ E) as (_ & _ & [->|Hv]); [exact IH | exact Hv].
    + destruct (mine_chain fuel nid ts st) as [->|(l & blk & Hc & Hl & Hc' & Hlink)]; [exact IH|].
      rewrite Hc'. rewrite Hc in IH.
      destruct l as [|b t]; [contradiction|].
      apply valid_chain_cons in IH. cbn [app]. apply valid_chain_cons.
      rewrite links_ok_app, IH. cbn [andb links_ok].
      rewrite last_cons_cons in Hlink. rewrite Hlink. reflexivity.
Qed.

(** In every state reachable through the HTTP endpoints, valid_chain
    returns True on the node's own chain (it never returns False or
    raises there). *)
Theorem api_reachable_chain_valid : forall st,
  reachable api_step st -> valid_chain (chain st) = Ok true.
Proof. exact api_reachable_valid. Qed.

Lemma api_reachable_chain_valid_witness :
  reachable api_step adopted_odd /\ valid_chain (chain adopted_odd) = Ok true.
Proof.
  assert (R : reachable api_step adopted_odd).
  { unfold adopted_odd. eapply reach_step; [|apply as_resolve].
    unfold node_a. eapply reach_step; [apply reach_init | apply as_register_node]. }
  split; [exact R | exact (api_reachable_chain_valid _ R)].
Defined.

(** ** Block indices of a node that never runs consensus *)

Lemma new_block_indexed : forall ts p ph st l,
  chain st = JArr l -> l <> [] ->
  (forall i b, nth_error l i = Some b -> py_getitem b "index" = Ok (JInt (Z.of_nat i + 1))) ->
  exists l', chain (fst (new_block ts p ph st)) = JArr l' /\ l' <> [] /\
    (forall i b, nth_error l' i = Some b -> py_getitem b "index" = Ok (JInt (Z.of_nat i + 1))).
Proof.
  intros ts p ph st l Hc Hl Hi. rewrite (new_block_spec ts p ph st l Hc Hl). cbn [fst chain].
  eexists. split; [reflexivity|]. split; [destruct l; [contradiction | discriminate]|].
  intros i b Hb. destruct (Nat.lt_ge_cases i (List.length l)) as [Hlt|Hge].
  - rewrite nth_error_app1 in Hb by exact Hlt. exact (Hi i b Hb).
  - rewrite nth_error_app2 in Hb by exact Hge.
    destruct (i - List.length l)%nat eqn:Hd; [|destruct n; discriminate].
    injection Hb as <-. replace i with (List.length l) by lia. reflexivity.
Qed.

Lemma mine_via_new_block : forall fuel nid ts st,
  chain (fst (mine fuel nid ts st)) = chain st \/
  exists p st1, chain st1 = chain st /\
    chain (fst (mine fuel nid ts st)) = chain (fst (new_block ts p JNull st1)).
Proof.
  intros fuel nid ts st. rewrite mine_eq.
  destruct (py_index (chain st) (-1)) as [lb|e]; [|left; reflexivity].
  destruct (py_getitem lb "proof") as [lp|e]; [|left; reflexivity].
  destruct (proof_of_work fuel lp) as [p|]; [|left; reflexivity].
  pose proof (new_transaction_state (JStr "0") (JStr nid) (JInt 1) st) as Hst.
  unfold bind, lift, ret.
  destruct (new_transaction (JStr "0") (JStr nid) (JInt 1) st) as [st1 [i| |]];
    simpl in Hst; subst st1;
    [| left; reflexivity | left; reflexivity].
  right. exists (JInt p), (set_current_transactions
    (current_transactions st ++
       [JObj [("sender"%string, JStr "0"); ("recipient"%string, JStr nid); ("amount"%string, JInt 1)]])
    st).
  split; [reflexivity|].
  destruct (new_block ts (JInt p) JNull _) as [st2 [blk| |]]; [|reflexivity | reflexivity].
  destruct (py_getitem blk "index"); [|reflexivity].
  destruct (py_getitem blk "transactions"); [|reflexivity].
  destruct (py_getitem blk "proof"); [|reflexivity].
  destruct (py_getitem blk "previous_hash"); reflexivity.
Qed.

Lemma last_nth_error : forall (l : list json), l <> [] ->
  nth_error l (List.length l - 1) = Some (last l JNull).
Proof.
  intros l Hl. destruct (exists_last Hl) as (pre & b & ->).
  rewrite last_last, length_app. simpl.
  replace (List.length pre + 1 - 1)%nat with (List.length pre) by lia.
  rewrite nth_error_app2, Nat.sub_diag by lia. reflexivity.
Qed.

(** Without resolve_conflicts, the chain stays a non-empty list in which
    the block at position [i] (counting from 0) has index [i + 1], so
    new_transaction returns [len(chain) + 1], the index of the block the
    transaction will go into. *)
Theorem local_chain_indices : forall st,
  reachable local_step st ->
  exists l, chain st = JArr l /\ l <> [] /\
    (forall i b, nth_error l i = Some b -> py_getitem b "index" = Ok (JInt (Z.of_nat i + 1))) /\
    (forall s r a, snd (new_transaction s r a st) = Returns (IndexInt (Z.of_nat (List.length l) + 1))).
Proof.
  intros st H.
  assert (Inv : exists l, chain st = JArr l /\ l <> [] /\
    (forall i b, nth_error l i = Some b -> py_getitem b "index" = Ok (JInt (Z.of_nat i + 1)))).
  { induction H as [ts|st st' _ IH Hs].
    - eexists. split; [reflexivity|]. split; [discriminate|].
      intros [|[|i]] b Hb; simpl in Hb; try discriminate. injection Hb as <-. reflexivity.
    - destruct IH as (l & Hc & Hl & Hi).
      destruct Hs as [s r a st|ts p ph st|addr st|fuel nid ts st].
      + rewrite new_transaction_state. exists l. auto.
      + exact (new_block_indexed ts p ph st l Hc Hl Hi).
      + rewrite (proj1 (register_node_state addr st)). exists l. auto.
      + destruct (mine_via_new_block fuel nid ts st) as [->|(p & st1 & Hc1 & ->)];
          [exists l; auto|].
        rewrite Hc in Hc1. exact (new_block_indexed ts p JNull st1 l Hc1 Hl Hi). }
  destruct Inv as (l & Hc & Hl & Hi). exists l. split; [exact Hc | split; [exact Hl | split; [exact Hi|]]].
  intros s r a. unfold new_transaction, last_block, bind, modify, get, lift. cbn.
  rewrite Hc, (py_index_last l Hl).
  rewrite (Hi _ _ (last_nth_error l Hl)). cbn [py_add_one].
  destruct l as [|b t]; [contradiction|]. cbn [List.length]. 
  replace (Z.of_nat (S (List.length t) - 1) + 1 + 1) with (Z.of_nat (S (List.length t)) + 1) by lia.
  reflexivity.
Qed.

Lemma local_chain_indices_witness :
  reachable local_step (fst (new_block "1700000001.0" (JInt 0) JNull (blockchain_init "1700000000.5"))) /\
  snd (new_transaction (JStr "A") (JStr "B") (JInt 10)
         (fst (new_block "1700000001.0" (JInt 0) JNull (blockchain_init "1700000000.5")))) =
    Returns (IndexInt 3).
Proof.
  assert (R : reachable local_step
                (fst (new_block "1700000001.0" (JInt 0) JNull (blockchain_init "1700000000.5"))))
    by (eapply reach_step; [apply reach_init | apply ls_new_block]).
  split; [exact R|].
  destruct (local_chain_indices _ R) as (l & Hc & _ & _ & Hn).
  rewrite Hn. vm_compute in Hc. injection Hc as <-. reflexivity.
Defined.

(** ** Shape of the hex digest *)

Lemma land_255_range : forall x, 0 <= Z.land x 255 <= 255.
Proof.
  intros x. replace (Z.land x 255) with (x mod 256)
    by (change 255 with (Z.ones 8); rewrite Z.land_ones by lia; reflexivity).
  pose proof (Z.mod_pos_bound x 256 ltac:(lia)) as H. lia.
Qed.
Lemma be_bytes_4 : forall ws,
  List.length (flat_map (Sha256.be_bytes 4) ws) = (4 * List.length ws)%nat /\
  Forall (fun z => 0 <= z <= 255) (flat_map (Sha256.be_bytes 4) ws).
Proof.
  induction ws as [|w ws [IHl IHf]]; [split; [reflexivity | constructor]|].
  cbn [flat_map]. rewrite length_app. split.
  - unfold Sha256.be_bytes at 1. rewrite length_map, length_seq, IHl. cbn [List.length]. lia.
  - apply Forall_app. split; [|exact IHf].
    apply Forall_forall. intros z Hz. unfold Sha256.be_bytes in Hz.
    apply in_map_iff in Hz as (i & <- & _). apply land_255_range.
Qed.
Lemma round_length : forall st kw, List.length (Sha256.round st kw) = List.length st.
Proof.
  intros st kw. unfold Sha256.round.
  do 8 (destruct st as [|? st]; [reflexivity|]). destruct st; reflexivity.
Qed.

Lemma fold_round_length : forall kws st,
  List.length (fold_left Sha256.round kws st) = List.length st.
Proof.
  induction kws as [|kw kws IH]; intros st; [reflexivity|].
  cbn [fold_left]. rewrite IH. apply round_length.
Qed.

Lemma compress_length : forall hs block,
  List.length (Sha256.compress hs block) = List.length hs.
Proof.
  intros hs block. unfold Sha256.compress.
  rewrite length_map, length_combine, fold_round_length. apply Nat.min_id.
Qed.

Lemma process_length : forall n hs bs, List.length (Sha256.process n hs bs) = List.length hs.
Proof.
  induction n as [|n IH]; intros hs bs; [reflexivity|].
  cbn [Sha256.process]. rewrite IH. apply compress_length.
Qed.
Lemma hex_char_digit : forall n, 0 <= n <= 15 ->
  (48 <= code (Sha256.hex_char n) <= 57 \/ 97 <= code (Sha256.hex_char n) <= 102)%nat.
Proof.
  intros n Hn. unfold Sha256.hex_char, code.
  destruct (n <? 10) eqn:E.
  - apply Z.ltb_lt in E. left. rewrite nat_ascii_embedding by lia. lia.
  - apply Z.ltb_ge in E. right. rewrite nat_ascii_embedding by lia. lia.
Qed.

Lemma hex_shape : forall bs, Forall (fun z => 0 <= z <= 255) bs ->
  String.length (Sha256.hex bs) = (2 * List.length bs)%nat /\
  (forall i c, String.get i (Sha256.hex bs) = Some c ->
     (48 <= code c <= 57 \/ 97 <= code c <= 102)%nat).
Proof.
  induction bs as [|b bs IH]; intros Hf.
  - split; [reflexivity|]. intros i c H. destruct i; discriminate.
  - inversion Hf as [|? ? Hb Hbs]; subst. destruct (IH Hbs) as [IHl IHc].
    split; [cbn [Sha256.hex String.length List.length]; rewrite IHl; lia|].
    intros [|[|i]] c H; cbn [Sha256.hex String.get] in H.
    + injection H as <-. apply hex_char_digit.
      rewrite Z.shiftr_div_pow2 by lia. change (2 ^ 4) with 16.
      split; [apply Z.div_pos; lia|].
      assert (b / 16 < 16) by (apply Z.div_lt_upper_bound; lia). lia.
    + injection H as <-. apply hex_char_digit.
      replace (Z.land b 15) with (b mod 16)
        by (change 15 with (Z.ones 4); rewrite Z.land_ones by lia; reflexivity).
      pose proof (Z.mod_pos_bound b 16 ltac:(lia)) as Hm. lia.
    + exact (IHc i c H).
Qed.

(** [hash] always returns 64 characters, each a digit or a lowercase
    letter a..f: it is never the empty (falsy) string, so the
    [previous_hash or self.hash(...)] fallback of new_block always yields
    a non-empty string, and it never equals a sentinel such as '1'. *)
Theorem hash_is_64_hex : forall block,
  String.length (hash block) = 64%nat /\
  (forall i c, String.get i (hash block) = Some c ->
     (48 <= code c <= 57 \/ 97 <= code c <= 102)%nat).
Proof.
  intros block. unfold hash, Sha256.hexdigest, Sha256.digest.
  destruct (be_bytes_4 (Sha256.process (List.length (Sha256.pad (utf8_encode (dumps block))) / 64)
                          Sha256.H0 (Sha256.pad (utf8_encode (dumps block))))) as [Hl Hf].
  destruct (hex_shape _ Hf) as [Hxl Hxc]. split; [|exact Hxc].
  rewrite Hxl, Hl, process_length. reflexivity.
Qed.

(** ** The [/transactions/new] handler *)

Local Open Scope string_scope.

Lemma all_in_obj : forall ks l,
  all_in ks (JObj l) = Ok (forallb (fun k => existsb (fun kv => String.eqb (fst kv) k) l) ks).
Proof.
  induction ks as [|k ks IH]; intros l; [reflexivity|].
  cbn [all_in py_contains bind_result forallb].
  destruct (existsb _ l); [apply IH | reflexivity].
Qed.

Lemma all_in_container : forall ks v,
  (exists l, v = JArr l) \/ (exists s, v = JStr s) -> exists b, all_in ks v = Ok b.
Proof.
  intros ks v Hv. induction ks as [|k ks IH]; [exists true; reflexivity|].
  cbn [all_in]. destruct Hv as [[l ->]|[s ->]]; cbn [py_contains bind_result];
    match goal with |- context [if ?b then _ else _] => destruct b end;
    solve [exact IH | exists false; reflexivity].
Qed.


(** [POST /transactions/new] with a JSON object lacking one of 'sender',
    'recipient' and 'amount' answers 400 'Missing values' and leaves the
    node unchanged. *)
Theorem views_new_transaction_missing : forall l k st,
  In k required -> ~ In k (map fst l) ->
  Views.new_transaction (JObj l) st = (st, Returns (BodyText "Missing values", 400)).
Proof.
  intros l k st Hk Hn. unfold Views.new_transaction, bind, lift, ret.
  rewrite all_in_obj.
  destruct (forallb _ required) eqn:E; [|reflexivity].
  exfalso. apply Hn. rewrite forallb_forall in E. specialize (E k Hk).
  apply existsb_exists in E as (kv & Hin & Heq). apply String.eqb_eq in Heq.
  subst k. apply in_map. exact Hin.
Qed.

Lemma views_new_transaction_missing_witness :
  In "recipient" required /\ ~ In "recipient" (map fst [("sender", JStr "A"); ("amount", JInt 5)]) /\
  Views.new_transaction (JObj [("sender", JStr "A"); ("amount", JInt 5)]) (blockchain_init "1700000000.5") =
    (blockchain_init "1700000000.5", Returns (BodyText "Missing values", 400)).
Proof.
  assert (H1 : In "recipient" required) by (simpl; auto).
  assert (H2 : ~ In "recipient" (map fst [("sender", JStr "A"); ("amount", JInt 5)]))
    by (simpl; intros [H|[H|H]]; discriminate || contradiction).
  split; [exact H1 | split; [exact H2 | exact (views_new_transaction_missing _ _ _ H1 H2)]].
Defined.



(** [POST /transactions/new] with a body that is not a JSON object
    (null, a number, a list, a string) never records a transaction: the
    node is unchanged and the handler either answers 400 'Missing values'
    or raises TypeError (a number or null is not iterable, and a list or
    string that contains the three names cannot be indexed by them). *)
Theorem views_new_transaction_non_object : forall values st,
  (forall l, values <> JObj l) ->
  Views.new_transaction values st = (st, Returns (BodyText "Missing values", 400)) \/
  Views.new_transaction values st = (st, Raises TypeError).
Proof.
  intros values st Hv. unfold Views.new_transaction, bind at 1, lift at 1.
  assert (Hc : forall ks, (exists l, values = JArr l) \/ (exists s, values = JStr s) ->
            exists b, all_in ks values = Ok b) by (intros ks; apply all_in_container).
  destruct values as [| | | |s|l|l]; try (exfalso; exact (Hv l eq_refl));
    try (right; reflexivity).
  - destruct (Hc required (or_intror (ex_intro _ s eq_refl))) as [[|] ->];
      [right | left]; reflexivity.
  - destruct (Hc required (or_introl (ex_intro _ l eq_refl))) as [[|] ->];
      [right | left]; reflexivity.
Qed.

Lemma views_new_transaction_non_object_witness :
  Views.new_transaction (JStr "sender recipient amount") (blockchain_init "1700000000.5") =
    (blockchain_init "1700000000.5", Raises TypeError) /\
  Views.new_transaction (JArr [JStr "sender"]) (blockchain_init "1700000000.5") =
    (blockchain_init "1700000000.5", Returns (BodyText "Missing values", 400)).
Proof.
  destruct (views_new_transaction_non_object (JStr "sender recipient amount")
              (blockchain_init "1700000000.5") ltac:(intros l; discriminate)) as [H|H];
    [vm_compute in H; discriminate H|].
  split; [exact H|].
  destruct (views_new_transaction_non_object (JArr [JStr "sender"])
              (blockchain_init "1700000000.5") ltac:(intros l; discriminate)) as [H'|H'];
    [exact H' | vm_compute in H'; discriminate H'].
Defined.
